(** * Car rental service: a shallow embedding of [car_rental_app.py]

    The Python module keeps three class-level identifier counters
    ([User._id_counter], [Car._id_counter], [Booking._id_counter]) and one
    module-level [RentalService] instance whose three dictionaries hold the
    users, the cars and the bookings.  [Car] objects are mutable (their
    [bookings] list grows) and are shared between the [cars] dictionary and
    every [Booking] that refers to them, so cars live in an explicit heap and
    are named by reference.  [User] and [Booking] objects are never mutated
    after construction and are embedded as plain records. *)

From Stdlib Require Import ZArith List Bool Lia Sorted.
From Stdlib Require Import Floats.SpecFloat.
From stdpp Require Import base tactics option list strings pretty.

Local Open Scope string_scope.
Local Open Scope list_scope.
Local Open Scope Z_scope.

(** ** Naive [datetime] values

    A naive [datetime] is the tuple (year, month, day, hour, minute, second,
    microsecond); Python orders two of them lexicographically on that tuple. *)

Record datetime := mkdatetime {
  year : Z; month : Z; day : Z;
  hour : Z; minute : Z; second : Z; microsecond : Z }.

Definition datetime_fields (d : datetime) : list Z :=
  [year d; month d; day d; hour d; minute d; second d; microsecond d].

Fixpoint lex_compare (a b : list Z) : comparison :=
  match a, b with
  | [], [] => Eq
  | [], _ :: _ => Lt
  | _ :: _, [] => Gt
  | x :: a', y :: b' =>
      match Z.compare x y with
      | Eq => lex_compare a' b'
      | c => c
      end
  end.

Definition datetime_compare (a b : datetime) : comparison :=
  lex_compare (datetime_fields a) (datetime_fields b).

(** [a <= b] and [a < b] as Python evaluates them. *)
Definition datetime_leb (a b : datetime) : bool :=
  match datetime_compare a b with Gt => false | _ => true end.

Definition datetime_ltb (a b : datetime) : bool :=
  match datetime_compare a b with Lt => true | _ => false end.

Definition datetime_le (a b : datetime) : Prop := datetime_leb a b = true.
Definition datetime_lt (a b : datetime) : Prop := datetime_ltb a b = true.

(** [datetime(y, m, d)]: a calendar date at midnight, what
    [datetime.strptime(s, "%Y-%m-%d")] builds. *)
Definition date (y m d : Z) : datetime := mkdatetime y m d 0 0 0 0.

(** Left-pads a decimal numeral with zeros up to [width] characters. *)
Definition zero_pad (width : nat) (s : string) : string :=
  String.concat "" (replicate (width - String.length s) "0") +:+ s.

(** [d.strftime("%Y-%m-%d")], as the C library prints it under glibc: the
    year in decimal without padding (so 999, not 0999), the month and the
    day on two digits. *)
Definition strftime_Ymd (d : datetime) : string :=
  pretty (year d) +:+ "-" +:+
  zero_pad 2 (pretty (month d)) +:+ "-" +:+
  zero_pad 2 (pretty (day d)).

(** ** Python values that end up in the JSON payloads *)

(** A Python [float]: an IEEE 754 binary64 value. *)
Definition float := spec_float.

(** The [float] that a literal such as [45.0] denotes. *)
Definition float_of_Z (z : Z) : float := binary_normalize 53 1024 z 0 false.

Inductive pyobj :=
| PyInt (z : Z)
| PyStr (s : string)
| PyFloat (f : float).

(** A dictionary literal with string keys, in the order it is written. *)
Definition pydict := list (string * pyobj).

Fixpoint pydict_get (k : string) (d : pydict) : option pyobj :=
  match d with
  | [] => None
  | (k', v) :: d' => if decide (k' = k) then Some v else pydict_get k d'
  end.

(** ** Dictionaries keyed by integers

    Python dictionaries iterate in insertion order; assigning to a key that
    is already present replaces the value and keeps the position. *)

Definition dict (V : Type) := list (Z * V).

Fixpoint dict_get {V} (k : Z) (d : dict V) : option V :=
  match d with
  | [] => None
  | (k', v) :: d' => if decide (k' = k) then Some v else dict_get k d'
  end.

Fixpoint dict_set {V} (k : Z) (v : V) (d : dict V) : dict V :=
  match d with
  | [] => [(k, v)]
  | (k', v') :: d' =>
      if decide (k' = k) then (k', v) :: d' else (k', v') :: dict_set k v d'
  end.

Definition dict_keys {V} (d : dict V) : list Z := map fst d.
Definition dict_values {V} (d : dict V) : list V := map snd d.

(** ** The three classes *)

Record User := mkUser {
  user_id : Z;
  user_name : string;
  user_email : string }.

(** A reference to a [Car] object: its address in the heap. *)
Definition ref := nat.

Record Booking := mkBooking {
  booking_id : Z;
  booking_user : User;
  booking_car : ref;
  booking_start_date : datetime;
  booking_end_date : datetime }.

Record Car := mkCar {
  car_id : Z;
  car_name : string;
  car_type : string;
  price_per_day : float;
  car_bookings : list Booking }.

Record RentalService := mkRentalService {
  users : dict User;
  cars : dict ref;
  bookings : dict Booking }.

(** The state of the Python process: the class attributes, the [Car]
    objects, and the module-level [rental_service]. *)
Record World := mkWorld {
  User_id_counter : Z;
  Car_id_counter : Z;
  Booking_id_counter : Z;
  heap : list Car;
  rental_service : RentalService }.

#[global] Instance datetime_eq_dec : EqDecision datetime.
Proof. solve_decision. Defined.
#[global] Instance User_eq_dec : EqDecision User.
Proof. solve_decision. Defined.
#[global] Instance Booking_eq_dec : EqDecision Booking.
Proof. solve_decision. Defined.

(** ** Exceptions and the state monad of the service *)

(** The [ValueError]s that [book_car] raises. *)
Inductive ValueError :=
| User_does_not_exist (user_id : Z)
| Car_does_not_exist (car_id : Z)
| Car_not_available.

(** [str(e)] *)
Definition ValueError_str (e : ValueError) : string :=
  match e with
  | User_does_not_exist user_id =>
      "User with id " +:+ pretty user_id +:+ " does not exist."
  | Car_does_not_exist car_id =>
      "Car with id " +:+ pretty car_id +:+ " does not exist."
  | Car_not_available => "Car is not available for the requested period."
  end.

Arguments ValueError_str : simpl never.

(** How a call ends.  [Stuck] stands for following a reference that names
    no object; Python has no such reference, and [no_stuck] below shows that
    the service never reaches it. *)
Inductive Outcome (A : Type) :=
| Return (a : A)
| Raise (e : ValueError)
| Stuck.
Arguments Return {A} a.
Arguments Raise {A} e.
Arguments Stuck {A}.

Definition M (A : Type) : Type := World → Outcome A * World.

Definition ret {A} (a : A) : M A := λ w, (Return a, w).

Definition bind {A B} (m : M A) (f : A → M B) : M B :=
  λ w, match m w with
       | (Return a, w') => f a w'
       | (Raise e, w') => (Raise e, w')
       | (Stuck, w') => (Stuck, w')
       end.

Definition raise {A} (e : ValueError) : M A := λ w, (Raise e, w).
Definition stuck {A} : M A := λ w, (Stuck, w).
Definition gets {A} (f : World → A) : M A := λ w, (Return (f w), w).
Definition modify (f : World → World) : M unit := λ w, (Return tt, f w).

(** [try: m except ValueError as e: h e] *)
Definition try_except {A} (m : M A) (h : ValueError → M A) : M A :=
  λ w, match m w with
       | (Raise e, w') => h e w'
       | r => r
       end.

Declare Scope py_scope.
Delimit Scope py_scope with py.
Notation "x <- m ;; k" := (bind m (λ x, k))
  (at level 100, m at next level, right associativity) : py_scope.
Notation "m ;;; k" := (bind m (λ _, k))
  (at level 100, right associativity) : py_scope.
Local Open Scope py_scope.

(** ** Field updates of the world *)

Definition set_User_id_counter (n : Z) (w : World) : World :=
  mkWorld n (Car_id_counter w) (Booking_id_counter w) (heap w) (rental_service w).
Definition set_Car_id_counter (n : Z) (w : World) : World :=
  mkWorld (User_id_counter w) n (Booking_id_counter w) (heap w) (rental_service w).
Definition set_Booking_id_counter (n : Z) (w : World) : World :=
  mkWorld (User_id_counter w) (Car_id_counter w) n (heap w) (rental_service w).
Definition set_heap (h : list Car) (w : World) : World :=
  mkWorld (User_id_counter w) (Car_id_counter w) (Booking_id_counter w) h
    (rental_service w).
Definition set_rental_service (s : RentalService) (w : World) : World :=
  mkWorld (User_id_counter w) (Car_id_counter w) (Booking_id_counter w) (heap w) s.

Definition set_users (d : dict User) (s : RentalService) : RentalService :=
  mkRentalService d (cars s) (bookings s).
Definition set_cars (d : dict ref) (s : RentalService) : RentalService :=
  mkRentalService (users s) d (bookings s).
Definition set_bookings (d : dict Booking) (s : RentalService) : RentalService :=
  mkRentalService (users s) (cars s) d.

(** Follows a reference to the [Car] it names. *)
Definition deref (r : ref) : M Car :=
  λ w, match heap w !! r with
       | Some c => (Return c, w)
       | None => (Stuck, w)
       end.

Fixpoint mapM {A B} (f : A → M B) (l : list A) : M (list B) :=
  match l with
  | [] => ret []
  | a :: l' => b <- f a ;; bs <- mapM f l' ;; ret (b :: bs)
  end.

(** ** class User *)

Definition User__init__ (name email : string) : M User :=
  id <- gets User_id_counter ;;
  modify (set_User_id_counter (id + 1)) ;;;
  ret (mkUser id name email).

Definition User_to_dict (self : User) : pydict :=
  [("id", PyInt (user_id self)); ("name", PyStr (user_name self));
   ("email", PyStr (user_email self))].

(** ** class Car *)

Definition Car__init__ (name car_type : string) (price_per_day : float) : M ref :=
  id <- gets Car_id_counter ;;
  modify (set_Car_id_counter (id + 1)) ;;;
  self <- gets (λ w, length (heap w)) ;;
  modify (λ w, set_heap (heap w ++ [mkCar id name car_type price_per_day []]) w) ;;;
  ret self.

(** The loop of [is_available] over [self.bookings]. *)
Fixpoint is_available_loop (bs : list Booking) (start_date end_date : datetime)
  : bool :=
  match bs with
  | [] => true
  | booking :: bs' =>
      if datetime_leb start_date (booking_end_date booking)
         && datetime_leb (booking_start_date booking) end_date
      then false
      else is_available_loop bs' start_date end_date
  end.

Definition Car_is_available (self : ref) (start_date end_date : datetime) : M bool :=
  c <- deref self ;;
  ret (is_available_loop (car_bookings c) start_date end_date).

Definition Car_to_dict (self : ref) : M pydict :=
  c <- deref self ;;
  ret [("id", PyInt (car_id c)); ("name", PyStr (car_name c));
       ("type", PyStr (car_type c)); ("price_per_day", PyFloat (price_per_day c))].

(** [self.bookings.append(booking)] *)
Definition Car_bookings_append (self : ref) (booking : Booking) : M unit :=
  c <- deref self ;;
  modify (λ w, set_heap
    (<[self := mkCar (car_id c) (car_name c) (car_type c) (price_per_day c)
                 (car_bookings c ++ [booking])]> (heap w)) w).

(** ** class Booking *)

Definition Booking__init__ (user : User) (car : ref)
    (start_date end_date : datetime) : M Booking :=
  id <- gets Booking_id_counter ;;
  modify (set_Booking_id_counter (id + 1)) ;;;
  ret (mkBooking id user car start_date end_date).

Definition Booking_to_dict (self : Booking) : M pydict :=
  c <- deref (booking_car self) ;;
  ret [("id", PyInt (booking_id self));
       ("user_id", PyInt (user_id (booking_user self)));
       ("car_id", PyInt (car_id c));
       ("start_date", PyStr (strftime_Ymd (booking_start_date self)));
       ("end_date", PyStr (strftime_Ymd (booking_end_date self)))].

(** ** class RentalService (methods of the module-level instance) *)

(** [RentalService()] with the class counters at their initial value. *)
Definition initial_world : World :=
  mkWorld 1 1 1 [] (mkRentalService [] [] []).

Definition add_user (name email : string) : M User :=
  user <- User__init__ name email ;;
  modify (λ w, set_rental_service
    (set_users (dict_set (user_id user) user (users (rental_service w)))
       (rental_service w)) w) ;;;
  ret user.

Definition add_car (name car_type : string) (price_per_day : float) : M ref :=
  car <- Car__init__ name car_type price_per_day ;;
  c <- deref car ;;
  modify (λ w, set_rental_service
    (set_cars (dict_set (car_id c) car (cars (rental_service w)))
       (rental_service w)) w) ;;;
  ret car.

Definition list_cars : M (list pydict) :=
  cs <- gets (λ w, dict_values (cars (rental_service w))) ;;
  mapM Car_to_dict cs.

Definition get_car (car_id : Z) : M (option ref) :=
  gets (λ w, dict_get car_id (cars (rental_service w))).

Definition get_user (user_id : Z) : M (option User) :=
  gets (λ w, dict_get user_id (users (rental_service w))).

Definition book_car (user_id car_id : Z) (start_date end_date : datetime)
  : M Booking :=
  user <- get_user user_id ;;
  match user with
  | None => raise (User_does_not_exist user_id)
  | Some user =>
      car <- get_car car_id ;;
      match car with
      | None => raise (Car_does_not_exist car_id)
      | Some car =>
          available <- Car_is_available car start_date end_date ;;
          if negb available then raise Car_not_available
          else
            booking <- Booking__init__ user car start_date end_date ;;
            Car_bookings_append car booking ;;;
            modify (λ w, set_rental_service
              (set_bookings
                 (dict_set (booking_id booking) booking
                    (bookings (rental_service w)))
                 (rental_service w)) w) ;;;
            ret booking
      end
  end.

Definition list_bookings : M (list pydict) :=
  bs <- gets (λ w, dict_values (bookings (rental_service w))) ;;
  mapM Booking_to_dict bs.

(** The three cars the module registers when it is loaded. *)
Definition seed : M unit :=
  add_car "Peugeot 208" "Economy" (float_of_Z 45) ;;;
  add_car "BMW X5" "SUV" (float_of_Z 120) ;;;
  add_car "Tesla Model 3" "Electric" (float_of_Z 150) ;;;
  ret tt.

Definition seeded_world : World := snd (seed initial_world).

(** ** The Flask endpoints *)

Inductive json :=
| JObject (d : pydict)
| JArray (l : list pydict).

Record Response := mkResponse { body : json; status : Z }.

Definition error_response (msg : string) : Response :=
  mkResponse (JObject [("error", PyStr msg)]) 400.

(** Truth value of [data.get(key)] when the entry is a string, or is
    absent or null ([None]): [None] and the empty string are false.  Other
    JSON values (numbers, booleans, lists, objects) are not represented. *)
Definition truthy (o : option string) : bool :=
  match o with
  | Some s => negb (String.eqb s "")
  | None => false
  end.

Module app.

(** [GET /cars] *)
Definition list_cars : M Response :=
  l <- list_cars ;; ret (mkResponse (JArray l) 200).

(** [POST /users] for a body that is a JSON object whose "name" and
    "email" entries are strings or are absent or null; [name] and [email]
    are what [data.get] returned.  A body that is not an object (where
    [data.get] raises [AttributeError], which nothing catches) and entries
    of other JSON types are outside this definition. *)
Definition register_user (name email : option string) : M Response :=
  if negb (truthy name) || negb (truthy email)
  then ret (error_response "Missing name or email")
  else
    user <- add_user (default "" name) (default "" email) ;;
    ret (mkResponse (JObject (User_to_dict user)) 201).

(** [POST /book] for a request on which the first [try] block ends in one
    of the two ways it provides for; [parsed] is that outcome: the message
    of the [TypeError] or [ValueError] raised by [int] or [strptime] and
    caught, or the four converted values.  A request that makes the block
    raise anything else ([AttributeError] of [data.get] on a body that is
    not an object, [OverflowError] of [int] on an infinite number), which
    nothing catches, is outside this definition. *)
Definition book_car_endpoint (parsed : string + (Z * Z * datetime * datetime))
  : M Response :=
  match parsed with
  | inl e => ret (error_response ("Invalid booking data: " +:+ e))
  | inr (user_id, car_id, start_date, end_date) =>
      if datetime_ltb end_date start_date
      then ret (error_response "End date must be after start date")
      else
        r <- try_except
               (booking <- book_car user_id car_id start_date end_date ;;
                ret (inr booking))
               (λ e, ret (inl (error_response (ValueError_str e)))) ;;
        match r with
        | inl resp => ret resp
        | inr booking =>
            d <- Booking_to_dict booking ;;
            ret (mkResponse (JObject d) 201)
        end
  end.

(** [GET /bookings] *)
Definition list_bookings_endpoint : M Response :=
  l <- list_bookings ;; ret (mkResponse (JArray l) 200).

End app.

(** ** Sequences of calls

    A client of the module calls the service methods directly or goes
    through the HTTP endpoints; a history of the process is a list of such
    calls, run from left to right. *)

Inductive Op :=
| Call_add_user (name email : string)
| Call_add_car (name car_type : string) (price_per_day : float)
| Call_book_car (user_id car_id : Z) (start_date end_date : datetime)
| Call_list_cars
| Call_list_bookings
| Get_cars
| Post_users (name email : option string)
| Post_book (parsed : string + (Z * Z * datetime * datetime))
| Get_bookings.

Inductive Value :=
| VUser (u : User)
| VCar (r : ref)
| VBooking (b : Booking)
| VList (l : list pydict)
| VResponse (r : Response).

Definition exec (op : Op) : M Value :=
  match op with
  | Call_add_user name email => u <- add_user name email ;; ret (VUser u)
  | Call_add_car name car_type price =>
      r <- add_car name car_type price ;; ret (VCar r)
  | Call_book_car user_id car_id start_date end_date =>
      b <- book_car user_id car_id start_date end_date ;; ret (VBooking b)
  | Call_list_cars => l <- list_cars ;; ret (VList l)
  | Call_list_bookings => l <- list_bookings ;; ret (VList l)
  | Get_cars => r <- app.list_cars ;; ret (VResponse r)
  | Post_users name email => r <- app.register_user name email ;; ret (VResponse r)
  | Post_book parsed => r <- app.book_car_endpoint parsed ;; ret (VResponse r)
  | Get_bookings => r <- app.list_bookings_endpoint ;; ret (VResponse r)
  end.

(** The world after a history; an exception ends a call, not the process. *)
Fixpoint run (ops : list Op) (w : World) : World :=
  match ops with
  | [] => w
  | op :: ops' => run ops' (snd (exec op w))
  end.

(** The outcomes of the calls of a history, in order. *)
Fixpoint outcomes (ops : list Op) (w : World) : list (Outcome Value) :=
  match ops with
  | [] => []
  | op :: ops' => fst (exec op w) :: outcomes ops' (snd (exec op w))
  end.

(** Histories in which bookings are only requested through [POST /book]. *)
Definition through_endpoint (op : Op) : bool :=
  match op with
  | Call_book_car _ _ _ _ => false
  | _ => true
  end.

(** Calls that do not hand [book_car] an end date before the start date:
    every call but a direct [book_car] with [end_date < start_date]. *)
Definition dates_in_order (op : Op) : bool :=
  match op with
  | Call_book_car _ _ start_date end_date => datetime_leb start_date end_date
  | _ => true
  end.

(** *** Identifiers handed out during a history *)

Inductive Kind := KUser | KCar | KBooking.

#[global] Instance Kind_eq_dec : EqDecision Kind.
Proof. solve_decision. Defined.

(** The ["id"] entry of a 201 response. *)
Definition created_id (r : Response) : option Z :=
  if decide (status r = 201) then
    match body r with
    | JObject d =>
        match pydict_get "id" d with
        | Some (PyInt z) => Some z
        | _ => None
        end
    | JArray _ => None
    end
  else None.

(** The identifier a call assigned, read off the object it returned; [w']
    is the world after the call. *)
Definition assigned (op : Op) (out : Outcome Value) (w' : World)
  : option (Kind * Z) :=
  match op, out with
  | Call_add_user _ _, Return (VUser u) => Some (KUser, user_id u)
  | Call_add_car _ _ _, Return (VCar r) =>
      c ← heap w' !! r; Some (KCar, car_id c)
  | Call_book_car _ _ _ _, Return (VBooking b) => Some (KBooking, booking_id b)
  | Post_users _ _, Return (VResponse r) => z ← created_id r; Some (KUser, z)
  | Post_book _, Return (VResponse r) => z ← created_id r; Some (KBooking, z)
  | _, _ => None
  end.

Definition assigned_of (k : Kind) (a : option (Kind * Z)) : list Z :=
  match a with
  | Some (k', z) => if decide (k' = k) then [z] else []
  | None => []
  end.

(** The identifiers of kind [k] assigned by the successful creations of a
    history, in the order of the calls. *)
Fixpoint ids_assigned (k : Kind) (ops : list Op) (w : World) : list Z :=
  match ops with
  | [] => []
  | op :: ops' =>
      let (out, w') := exec op w in
      assigned_of k (assigned op out w') ++ ids_assigned k ops' w'
  end.

(** ** Overlap of two closed ranges *)

Definition overlap (s1 e1 s2 e2 : datetime) : Prop :=
  datetime_le s1 e2 ∧ datetime_le s2 e1.

Definition bookings_overlap (b1 b2 : Booking) : Prop :=
  overlap (booking_start_date b1) (booking_end_date b1)
          (booking_start_date b2) (booking_end_date b2).

(** No two bookings at different positions of the list overlap. *)
Definition pairwise_disjoint (bs : list Booking) : Prop :=
  ∀ i j b1 b2, i ≠ j → bs !! i = Some b1 → bs !! j = Some b2 →
               ¬ bookings_overlap b1 b2.

(** The cars registered in the store: the objects the [cars] dictionary
    refers to. *)
Definition car_in_store (w : World) (k : Z) (r : ref) (c : Car) : Prop :=
  dict_get k (cars (rental_service w)) = Some r ∧ heap w !! r = Some c.

Definition ledger (w : World) : dict Booking := bookings (rental_service w).

(** * Vocabulary of the statements *)

(** ** The world after each successful call *)

(** The world [add_user] leaves behind. *)
Definition user_added (u : User) (w : World) : World :=
  mkWorld (User_id_counter w + 1) (Car_id_counter w) (Booking_id_counter w)
    (heap w)
    (mkRentalService (dict_set (user_id u) u (users (rental_service w)))
       (cars (rental_service w)) (bookings (rental_service w))).

(** The world [add_car] leaves behind. *)
Definition car_added (c : Car) (w : World) : World :=
  mkWorld (User_id_counter w) (Car_id_counter w + 1) (Booking_id_counter w)
    (heap w ++ [c])
    (mkRentalService (users (rental_service w))
       (dict_set (car_id c) (length (heap w)) (cars (rental_service w)))
       (bookings (rental_service w))).

Definition with_booking (b : Booking) (c : Car) : Car :=
  mkCar (car_id c) (car_name c) (car_type c) (price_per_day c)
    (car_bookings c ++ [b]).

(** The world a successful [book_car] leaves behind; [c] is the car the
    booking refers to, as it was before the call. *)
Definition booked (b : Booking) (c : Car) (w : World) : World :=
  mkWorld (User_id_counter w) (Car_id_counter w) (Booking_id_counter w + 1)
    (<[booking_car b := with_booking b c]> (heap w))
    (mkRentalService (users (rental_service w)) (cars (rental_service w))
       (dict_set (booking_id b) b (bookings (rental_service w)))).

(** ** The ways a booking call can go *)

(** The five ways a call of [book_car] can go. *)
Inductive book_car_outcome (user_id car_id : Z) (start_date end_date : datetime)
    (w : World) : Outcome Booking * World → Prop :=
| book_no_user :
    dict_get user_id (users (rental_service w)) = None →
    book_car_outcome user_id car_id start_date end_date w
      (Raise (User_does_not_exist user_id), w)
| book_no_car user :
    dict_get user_id (users (rental_service w)) = Some user →
    dict_get car_id (cars (rental_service w)) = None →
    book_car_outcome user_id car_id start_date end_date w
      (Raise (Car_does_not_exist car_id), w)
| book_dangling user car :
    dict_get user_id (users (rental_service w)) = Some user →
    dict_get car_id (cars (rental_service w)) = Some car →
    heap w !! car = None →
    book_car_outcome user_id car_id start_date end_date w (Stuck, w)
| book_unavailable user car c :
    dict_get user_id (users (rental_service w)) = Some user →
    dict_get car_id (cars (rental_service w)) = Some car →
    heap w !! car = Some c →
    is_available_loop (car_bookings c) start_date end_date = false →
    book_car_outcome user_id car_id start_date end_date w
      (Raise Car_not_available, w)
| book_ok user car c :
    dict_get user_id (users (rental_service w)) = Some user →
    dict_get car_id (cars (rental_service w)) = Some car →
    heap w !! car = Some c →
    is_available_loop (car_bookings c) start_date end_date = true →
    let b := mkBooking (Booking_id_counter w) user car start_date end_date in
    book_car_outcome user_id car_id start_date end_date w (Return b, booked b c w).

(** The ways [POST /book] can go. *)
Inductive book_car_endpoint_outcome (w : World)
  : string + (Z * Z * datetime * datetime) → Outcome Response * World → Prop :=
| post_book_unparsed msg :
    book_car_endpoint_outcome w (inl msg)
      (Return (error_response ("Invalid booking data: " +:+ msg)), w)
| post_book_invalid_range user_id car_id start_date end_date :
    datetime_lt end_date start_date →
    book_car_endpoint_outcome w (inr (user_id, car_id, start_date, end_date))
      (Return (error_response "End date must be after start date"), w)
| post_book_rejected user_id car_id start_date end_date e :
    datetime_ltb end_date start_date = false →
    book_car user_id car_id start_date end_date w = (Raise e, w) →
    book_car_endpoint_outcome w (inr (user_id, car_id, start_date, end_date))
      (Return (error_response (ValueError_str e)), w)
| post_book_dangling user_id car_id start_date end_date :
    datetime_ltb end_date start_date = false →
    book_car user_id car_id start_date end_date w = (Stuck, w) →
    book_car_endpoint_outcome w (inr (user_id, car_id, start_date, end_date))
      (Stuck, w)
| post_book_created uid cid start_date end_date user car c :
    datetime_ltb end_date start_date = false →
    dict_get uid (users (rental_service w)) = Some user →
    dict_get cid (cars (rental_service w)) = Some car →
    heap w !! car = Some c →
    is_available_loop (car_bookings c) start_date end_date = true →
    let b := mkBooking (Booking_id_counter w) user car start_date end_date in
    book_car_endpoint_outcome w (inr (uid, cid, start_date, end_date))
      (Return (mkResponse
         (JObject [("id", PyInt (booking_id b));
                   ("user_id", PyInt (user_id (booking_user b)));
                   ("car_id", PyInt (car_id c));
                   ("start_date", PyStr (strftime_Ymd (booking_start_date b)));
                   ("end_date", PyStr (strftime_Ymd (booking_end_date b)))])
         201), booked b c w).

(** ** One call, seen as a step of the world

    [step P fleet w w'] holds when [w'] is [w] after one call; [P] is what
    is known of the date arguments of a booking that went through, and
    [fleet] tells whether the call may have registered a car. *)
Inductive step (P : datetime → datetime → Prop) (fleet : bool) (w : World)
  : World → Prop :=
| step_none : step P fleet w w
| step_add_user name email :
    step P fleet w (user_added (mkUser (User_id_counter w) name email) w)
| step_add_car name car_type price :
    fleet = true →
    step P fleet w (car_added (mkCar (Car_id_counter w) name car_type price []) w)
| step_book user_id car_id start_date end_date user car c :
    dict_get user_id (users (rental_service w)) = Some user →
    dict_get car_id (cars (rental_service w)) = Some car →
    heap w !! car = Some c →
    is_available_loop (car_bookings c) start_date end_date = true →
    P start_date end_date →
    step P fleet w
      (booked (mkBooking (Booking_id_counter w) user car start_date end_date) c w).

Definition is_add_car (op : Op) : bool :=
  match op with
  | Call_add_car _ _ _ => true
  | _ => false
  end.

(** ** The invariant of the store *)

Record wf (w : World) : Prop := mk_wf {
  wf_users_keys : NoDup (dict_keys (users (rental_service w)));
  wf_cars_keys : NoDup (dict_keys (cars (rental_service w)));
  wf_ledger_keys : NoDup (dict_keys (ledger w));
  wf_users : ∀ k u,
    dict_get k (users (rental_service w)) = Some u →
    user_id u = k ∧ k < User_id_counter w;
  wf_cars : ∀ k r,
    dict_get k (cars (rental_service w)) = Some r →
    k < Car_id_counter w ∧ ∃ c, heap w !! r = Some c ∧ car_id c = k;
  wf_heap : ∀ r c,
    heap w !! r = Some c → dict_get (car_id c) (cars (rental_service w)) = Some r;
  wf_ledger : ∀ k b,
    dict_get k (ledger w) = Some b →
    booking_id b = k ∧ k < Booking_id_counter w ∧
    dict_get (user_id (booking_user b)) (users (rental_service w))
      = Some (booking_user b) ∧
    ∃ c, heap w !! booking_car b = Some c ∧ b ∈ car_bookings c;
  wf_car_bookings : ∀ r c b,
    heap w !! r = Some c → b ∈ car_bookings c →
    booking_car b = r ∧ dict_get (booking_id b) (ledger w) = Some b;
  wf_nodup : ∀ r c, heap w !! r = Some c → NoDup (car_bookings c);
  wf_disjoint : ∀ r c, heap w !! r = Some c → pairwise_disjoint (car_bookings c)
}.

(** ** Observations on worlds and histories *)

Definition dates_ordered (w : World) : Prop :=
  ∀ k b, dict_get k (ledger w) = Some b →
         datetime_le (booking_start_date b) (booking_end_date b).

(** The class counter of each kind of identifier. *)
Definition counter (k : Kind) (w : World) : Z :=
  match k with
  | KUser => User_id_counter w
  | KCar => Car_id_counter w
  | KBooking => Booking_id_counter w
  end.

(** What a call contributes to the fleet: the dictionary of the car that
    a successful [add_car] returned. *)
Definition car_added_by (op : Op) (out : Outcome Value) (w' : World)
  : list pydict :=
  match op, out with
  | Call_add_car _ _ _, Return (VCar r) =>
      match fst (Car_to_dict r w') with
      | Return d => [d]
      | _ => []
      end
  | _, _ => []
  end.

(** The cars added by a history, in the order of the [add_car] calls. *)
Fixpoint cars_added (ops : list Op) (w : World) : list pydict :=
  match ops with
  | [] => []
  | op :: ops' =>
      let (out, w') := exec op w in
      car_added_by op out w' ++ cars_added ops' w'
  end.

Definition is_booking (op : Op) : bool :=
  match op with
  | Call_book_car _ _ _ _ | Post_book _ => true
  | _ => false
  end.

(** How many times a booking occurs in a list. *)
Definition occurrences (b : Booking) (l : list Booking) : nat :=
  length (filter (λ b', b' = b) l).

(** Identifiers are handed out consecutively from 1: the keys of each
    dictionary, in insertion order, are 1, 2, ... up to the counter. *)
Definition contiguous (w : World) : Prop :=
  (1 ≤ User_id_counter w ∧
   dict_keys (users (rental_service w)) = seqZ 1 (User_id_counter w - 1)) ∧
  (1 ≤ Car_id_counter w ∧
   dict_keys (cars (rental_service w)) = seqZ 1 (Car_id_counter w - 1)) ∧
  (1 ≤ Booking_id_counter w ∧
   dict_keys (ledger w) = seqZ 1 (Booking_id_counter w - 1)).

(** [w'] holds everything [w] holds: the same users, cars and bookings
    under the same identifiers, every car with its fields as they were and
    its booking list grown at the end only. *)
Record extends (w w' : World) : Prop := mk_extends {
  ext_users : ∀ k u,
    dict_get k (users (rental_service w)) = Some u →
    dict_get k (users (rental_service w')) = Some u;
  ext_cars : ∀ k r,
    dict_get k (cars (rental_service w)) = Some r →
    dict_get k (cars (rental_service w')) = Some r;
  ext_ledger : ∀ k b,
    dict_get k (ledger w) = Some b → dict_get k (ledger w') = Some b;
  ext_heap : ∀ r c,
    heap w !! r = Some c →
    ∃ c', heap w' !! r = Some c' ∧
          car_id c' = car_id c ∧ car_name c' = car_name c ∧
          car_type c' = car_type c ∧ price_per_day c' = price_per_day c ∧
          car_bookings c `prefix_of` car_bookings c'
}.

(** What a call contributes to the ledger: the dictionary of the booking
    that a successful [book_car] returned, or the body of a 201 answer of
    [POST /book]. *)
Definition booking_made_by (op : Op) (out : Outcome Value) (w' : World)
  : list pydict :=
  match op, out with
  | Call_book_car _ _ _ _, Return (VBooking b) =>
      match fst (Booking_to_dict b w') with
      | Return d => [d]
      | _ => []
      end
  | Post_book _, Return (VResponse r) =>
      if decide (status r = 201) then
        match body r with
        | JObject d => [d]
        | JArray _ => []
        end
      else []
  | _, _ => []
  end.

(** The bookings made by a history, in the order of the calls. *)
Fixpoint bookings_made (ops : list Op) (w : World) : list pydict :=
  match ops with
  | [] => []
  | op :: ops' =>
      let (out, w') := exec op w in
      booking_made_by op out w' ++ bookings_made ops' w'
  end.

(** ** Example histories *)

Definition alice : User := mkUser 1 "Alice" "alice@example.com".

(** One car, one user. *)
Definition setup : list Op :=
  [Call_add_car "Peugeot 208" "Economy" (float_of_Z 45);
   Call_add_user "Alice" "alice@example.com"].

Definition august_25_27 : Booking :=
  mkBooking 1 alice 0%nat (date 2025 8 25) (date 2025 8 27).
Definition august_28_30 : Booking :=
  mkBooking 2 alice 0%nat (date 2025 8 28) (date 2025 8 30).

(** Two bookings of the car, the second starting the day after the first
    ends. *)
Definition two_bookings : list Op :=
  setup ++ [Call_book_car 1 1 (date 2025 8 25) (date 2025 8 27);
            Call_book_car 1 1 (date 2025 8 28) (date 2025 8 30)].

Definition peugeot_twice_booked : Car :=
  mkCar 1 "Peugeot 208" "Economy" (float_of_Z 45) [august_25_27; august_28_30].

(** Two cars and one user, and the world after the first car is booked. *)
Definition two_cars : list Op :=
  [Call_add_car "Peugeot 208" "Economy" (float_of_Z 45);
   Call_add_car "BMW X5" "SUV" (float_of_Z 120);
   Call_add_user "Alice" "alice@example.com"].

Definition two_cars_one_booked : World :=
  run (two_cars ++ [Call_book_car 1 1 (date 2025 8 25) (date 2025 8 27)])
    initial_world.

(** A booking whose end date precedes its start date, as the service
    accepts it when called directly. *)
Definition backwards : Booking :=
  mkBooking 1 alice 0%nat (date 2025 10 5) (date 2025 10 1).

(** The world of [setup] with the car booked from 25 to 27 August. *)
Definition booked_in_august : World :=
  run (setup ++ [Call_book_car 1 1 (date 2025 8 25) (date 2025 8 27)])
    initial_world.

(** The world of [setup] after a direct call of [book_car] from 5 October
    back to 1 October. *)
Definition booked_backwards : World :=
  run (setup ++ [Call_book_car 1 1 (date 2025 10 5) (date 2025 10 1)])
    initial_world.

(** * Properties *)

(** ** The order on [datetime] *)

Section DatetimeOrder.

Lemma lex_compare_refl a : lex_compare a a = Eq.
Proof. induction a as [|x a IH]; simpl; [done|]. by rewrite Z.compare_refl. Qed.

Lemma lex_compare_antisym a b : lex_compare b a = CompOpp (lex_compare a b).
Proof.
  revert b. induction a as [|x a IH]; intros [|y b]; simpl; try done.
  rewrite (Z.compare_antisym x y). destruct (Z.compare x y); simpl; auto.
Qed.

Lemma lex_compare_trans_le a b c :
  lex_compare a b ≠ Gt → lex_compare b c ≠ Gt → lex_compare a c ≠ Gt.
Proof.
  revert b c. induction a as [|x a IH]; intros [|y b] [|z c]; simpl; try done.
  destruct (Z.compare_spec x y), (Z.compare_spec y z); subst; try done.
  - rewrite Z.compare_refl. apply IH.
  - intros _ _. by destruct (Z.compare_spec y z); try lia.
  - intros _ _. by destruct (Z.compare_spec x z); try lia.
  - intros _ _. by destruct (Z.compare_spec x z); try lia.
Qed.

Lemma datetime_le_refl a : datetime_le a a.
Proof.
  unfold datetime_le, datetime_leb, datetime_compare.
  by rewrite lex_compare_refl.
Qed.

Lemma datetime_le_trans a b c :
  datetime_le a b → datetime_le b c → datetime_le a c.
Proof.
  unfold datetime_le, datetime_leb, datetime_compare. intros Hab Hbc.
  pose proof (lex_compare_trans_le (datetime_fields a) (datetime_fields b)
                (datetime_fields c)) as H.
  destruct (lex_compare (datetime_fields a) (datetime_fields b));
    destruct (lex_compare (datetime_fields b) (datetime_fields c));
    destruct (lex_compare (datetime_fields a) (datetime_fields c));
    try done; exfalso; by apply H.
Qed.

(** [not (b < a)] is [a <= b]: the order is total. *)
Lemma datetime_ltb_false_le a b : datetime_ltb b a = false → datetime_le a b.
Proof.
  unfold datetime_le, datetime_leb, datetime_ltb, datetime_compare.
  rewrite (lex_compare_antisym (datetime_fields a) (datetime_fields b)).
  by destruct (lex_compare (datetime_fields a) (datetime_fields b)).
Qed.

Lemma datetime_lt_not_le a b : datetime_lt b a → ¬ datetime_le a b.
Proof.
  unfold datetime_lt, datetime_le, datetime_leb, datetime_ltb, datetime_compare.
  rewrite (lex_compare_antisym (datetime_fields a) (datetime_fields b)).
  by destruct (lex_compare (datetime_fields a) (datetime_fields b)).
Qed.

Lemma overlap_sym s1 e1 s2 e2 : overlap s1 e1 s2 e2 → overlap s2 e2 s1 e1.
Proof. unfold overlap. tauto. Qed.

End DatetimeOrder.

(** ** Dictionaries *)

Section Dict.
Context {V : Type}.
Implicit Types (d : dict V) (k : Z) (v : V).

Lemma dict_get_set k k' v d :
  dict_get k' (dict_set k v d) = if decide (k = k') then Some v else dict_get k' d.
Proof.
  induction d as [|[k0 v0] d IH]; simpl.
  - repeat case_decide; congruence.
  - repeat (case_decide; simpl); try congruence.
Qed.

Lemma dict_get_set_eq k v d : dict_get k (dict_set k v d) = Some v.
Proof. rewrite dict_get_set. by case_decide. Qed.

Lemma dict_get_set_ne k k' v d :
  k ≠ k' → dict_get k' (dict_set k v d) = dict_get k' d.
Proof. intros. rewrite dict_get_set. by case_decide. Qed.

(** Assigning to a key that is not present appends the entry. *)
Lemma dict_set_fresh k v d : dict_get k d = None → dict_set k v d = d ++ [(k, v)].
Proof.
  induction d as [|[k0 v0] d IH]; simpl; [done|].
  case_decide; [done|]. intros Hg. by rewrite IH.
Qed.

Lemma dict_get_Some_elem k v d : dict_get k d = Some v → (k, v) ∈ d.
Proof.
  induction d as [|[k0 v0] d IH]; simpl; [done|].
  case_decide; intros Hg.
  - simplify_eq. left.
  - right. auto.
Qed.

Lemma dict_get_None_keys k d : dict_get k d = None ↔ k ∉ dict_keys d.
Proof.
  induction d as [|[k0 v0] d IH]; simpl.
  - split; [|done]. intros _ H. inversion H.
  - case_decide; subst.
    + split; [done|]. intros H. exfalso. apply H. left.
    + rewrite IH, not_elem_of_cons.
      split; [intros Hk; split; [congruence|done] | by intros [_ ?]].
Qed.

Lemma dict_elem_get k v d : NoDup (dict_keys d) → (k, v) ∈ d → dict_get k d = Some v.
Proof.
  induction d as [|[k0 v0] d IH]; simpl.
  - intros _ H. inversion H.
  - intros Hnd Hin. apply NoDup_cons in Hnd as [Hk0 Hnd].
    apply elem_of_cons in Hin as [Heq|Hin].
    + simplify_eq. by case_decide.
    + case_decide; [|by apply IH]. subst. exfalso. apply Hk0.
      apply list_elem_of_fmap. by exists (k, v).
Qed.

Lemma dict_values_elem v d : v ∈ dict_values d → ∃ k, (k, v) ∈ d.
Proof.
  unfold dict_values. intros H. apply list_elem_of_fmap in H as [[k v'] [-> H]].
  by exists k.
Qed.

Lemma dict_keys_set_fresh k v d :
  dict_get k d = None → dict_keys (dict_set k v d) = dict_keys d ++ [k].
Proof.
  intros H. rewrite dict_set_fresh by done. unfold dict_keys.
  by rewrite map_app.
Qed.

End Dict.

(** ** What each method does to the world *)

Ltac unfold_monad :=
  unfold bind, ret, raise, stuck, gets, modify, try_except, deref in *;
  simpl in *.

Lemma add_user_eq name email w :
  add_user name email w =
    let u := mkUser (User_id_counter w) name email in (Return u, user_added u w).
Proof. reflexivity. Qed.

Lemma add_car_eq name car_type price w :
  add_car name car_type price w =
    let c := mkCar (Car_id_counter w) name car_type price [] in
    (Return (length (heap w)), car_added c w).
Proof.
  unfold add_car, Car__init__. unfold_monad.
  rewrite lookup_app_r by lia. by rewrite Nat.sub_diag.
Qed.

Lemma book_car_inv user_id car_id start_date end_date w :
  book_car_outcome user_id car_id start_date end_date w
    (book_car user_id car_id start_date end_date w).
Proof.
  unfold book_car, get_user, get_car, Car_is_available, Booking__init__,
    Car_bookings_append.
  unfold_monad.
  destruct (dict_get user_id (users (rental_service w))) as [user|] eqn:Hu;
    [|by constructor].
  destruct (dict_get car_id (cars (rental_service w))) as [car|] eqn:Hc;
    [|by econstructor].
  destruct (heap w !! car) as [c|] eqn:Hh; [|by econstructor].
  destruct (is_available_loop (car_bookings c) start_date end_date) eqn:Ha;
    simpl; [|by econstructor].
  rewrite Hh. by apply (book_ok _ _ _ _ w user car c).
Qed.

Lemma book_car_failure_state user_id car_id start_date end_date w e w' :
  book_car user_id car_id start_date end_date w = (Raise e, w') → w' = w.
Proof.
  intros H. pose proof (book_car_inv user_id car_id start_date end_date w) as Hs.
  rewrite H in Hs. by inversion Hs.
Qed.

(** Reading through a list of references leaves the world alone. *)
Lemma mapM_state {A B} (f : A → M B) (l : list A) w :
  (∀ a w0, snd (f a w0) = w0) → snd (mapM f l w) = w.
Proof.
  intros Hf. revert w. induction l as [|a l IH]; intros w; simpl; [done|].
  unfold bind at 1. specialize (Hf a w).
  destruct (f a w) as [[b| |] w1]; simpl in *; subst; try done.
  unfold bind at 1. specialize (IH w).
  destruct (mapM f l w) as [[bs| |] w2]; simpl in *; by subst.
Qed.

Lemma Car_to_dict_state r w : snd (Car_to_dict r w) = w.
Proof. unfold Car_to_dict. unfold_monad. by destruct (heap w !! r). Qed.

Lemma Booking_to_dict_state b w : snd (Booking_to_dict b w) = w.
Proof.
  unfold Booking_to_dict. unfold_monad. by destruct (heap w !! booking_car b).
Qed.

Lemma list_cars_state w : snd (list_cars w) = w.
Proof.
  unfold list_cars. unfold bind, gets.
  apply mapM_state, Car_to_dict_state.
Qed.

Lemma list_bookings_state w : snd (list_bookings w) = w.
Proof.
  unfold list_bookings. unfold bind, gets.
  apply mapM_state, Booking_to_dict_state.
Qed.

Lemma bind_ret_state {A B} (m : M A) (f : A → B) w :
  snd ((x <- m ;; ret (f x)) w) = snd (m w).
Proof. unfold bind, ret. by destruct (m w) as [[a| |] w']. Qed.

Lemma bind_ret_fst_Return {A B} (m : M A) (f : A → B) w b :
  fst ((x <- m ;; ret (f x)) w) = Return b →
  ∃ a, fst (m w) = Return a ∧ b = f a.
Proof.
  unfold bind, ret. destruct (m w) as [[a| |] w']; simpl; try done.
  intros [= <-]. by exists a.
Qed.

Lemma book_car_endpoint_inv parsed w :
  book_car_endpoint_outcome w parsed (app.book_car_endpoint parsed w).
Proof.
  destruct parsed as [msg|[[[user_id car_id] start_date] end_date]]; simpl.
  { constructor. }
  destruct (datetime_ltb end_date start_date) eqn:Hlt.
  { by constructor. }
  pose proof (book_car_inv user_id car_id start_date end_date w) as Hs.
  unfold bind at 1, try_except. unfold bind at 1.
  destruct (book_car user_id car_id start_date end_date w) as [out w'] eqn:Hb.
  destruct out as [b|e|].
  - inversion Hs; subst. unfold Booking_to_dict. unfold_monad.
    assert (Hlen : (car < length (heap w))%nat) by by eapply lookup_lt_Some.
    rewrite list_lookup_insert_eq by done.
    by apply (post_book_created w user_id car_id start_date end_date user car c).
  - assert (w' = w) as -> by by inversion Hs.
    by apply post_book_rejected.
  - assert (w' = w) as -> by by inversion Hs.
    by apply post_book_dangling.
Qed.

(** *** One call, seen as a step of the world *)

Lemma book_car_step P user_id car_id start_date end_date w :
  P start_date end_date →
  step P false w (snd (book_car user_id car_id start_date end_date w)).
Proof.
  intros HP.
  destruct (book_car_inv user_id car_id start_date end_date w);
    simpl; try constructor.
  by eapply step_book.
Qed.

Lemma book_car_endpoint_step parsed w :
  step datetime_le false w (snd (app.book_car_endpoint parsed w)).
Proof.
  destruct (book_car_endpoint_inv parsed w); simpl; try constructor.
  eapply step_book; eauto. by apply datetime_ltb_false_le.
Qed.

Lemma step_weaken (P Q : datetime → datetime → Prop) fleet w w' :
  (∀ s e, P s e → Q s e) → step P fleet w w' → step Q fleet w w'.
Proof. intros HPQ [| | |]; try by constructor. eapply step_book; eauto. Qed.

Lemma register_user_step P name email w :
  step P false w (snd (app.register_user name email w)).
Proof.
  unfold app.register_user.
  destruct (negb (truthy name) || negb (truthy email)); [constructor|].
  rewrite bind_ret_state, add_user_eq. constructor.
Qed.

Lemma exec_step op w :
  step (λ s e, through_endpoint op = true → datetime_le s e) (is_add_car op)
    w (snd (exec op w)).
Proof.
  destruct op; unfold exec; rewrite bind_ret_state.
  - rewrite add_user_eq. constructor.
  - rewrite add_car_eq. by constructor.
  - by apply book_car_step.
  - rewrite list_cars_state. constructor.
  - rewrite list_bookings_state. constructor.
  - unfold app.list_cars. rewrite bind_ret_state, list_cars_state. constructor.
  - apply register_user_step.
  - eapply step_weaken; [|apply book_car_endpoint_step]. auto.
  - unfold app.list_bookings_endpoint.
    rewrite bind_ret_state, list_bookings_state. constructor.
Qed.

(** ** The availability check *)

Lemma is_available_loop_true bs start_date end_date :
  is_available_loop bs start_date end_date = true ↔
  ∀ b, b ∈ bs →
       ¬ overlap start_date end_date (booking_start_date b) (booking_end_date b).
Proof.
  unfold overlap, datetime_le.
  induction bs as [|b0 bs IH]; simpl.
  - split; [|done]. intros _ b Hb. by apply elem_of_nil in Hb.
  - destruct (datetime_leb start_date (booking_end_date b0)) eqn:H1,
             (datetime_leb (booking_start_date b0) end_date) eqn:H2; simpl.
    + split; [done|]. intros H. exfalso. apply (H b0); [left|done].
    + rewrite IH. split.
      * intros H b [->|Hb]%elem_of_cons; [|by apply H]. intros [_ ?]. congruence.
      * intros H b Hb. apply H. by right.
    + rewrite IH. split.
      * intros H b [->|Hb]%elem_of_cons; [|by apply H]. intros [? _]. congruence.
      * intros H b Hb. apply H. by right.
    + rewrite IH. split.
      * intros H b [->|Hb]%elem_of_cons; [|by apply H]. intros [? _]. congruence.
      * intros H b Hb. apply H. by right.
Qed.

Lemma pairwise_disjoint_nil : pairwise_disjoint [].
Proof. intros i j b1 b2 _ H. by rewrite lookup_nil in H. Qed.

(** Appending a booking that the check let through keeps the list free of
    overlaps. *)
Lemma pairwise_disjoint_snoc bs b :
  pairwise_disjoint bs →
  is_available_loop bs (booking_start_date b) (booking_end_date b) = true →
  pairwise_disjoint (bs ++ [b]).
Proof.
  intros Hbs Hav. rewrite is_available_loop_true in Hav.
  intros i j b1 b2 Hij H1 H2.
  apply lookup_snoc_Some in H1 as [[Hi H1]|[Hi <-]];
    apply lookup_snoc_Some in H2 as [[Hj H2]|[Hj <-]].
  - by apply (Hbs i j).
  - intros Ho. apply (Hav b1); [by eapply list_elem_of_lookup_2|].
    by apply overlap_sym.
  - apply Hav. by eapply list_elem_of_lookup_2.
  - lia.
Qed.

(** ** The invariant of the store *)

Lemma wf_initial : wf initial_world.
Proof.
  constructor; simpl; try constructor; try done.
Qed.

Lemma dict_keys_NoDup_set_fresh {V} k (v : V) d :
  dict_get k d = None → NoDup (dict_keys d) → NoDup (dict_keys (dict_set k v d)).
Proof.
  intros Hk Hnd. rewrite dict_keys_set_fresh by done.
  apply NoDup_app. split; [done|]. split; [|apply NoDup_singleton].
  intros x Hx ->%list_elem_of_singleton. by apply dict_get_None_keys in Hk.
Qed.

Section Fresh.
Context (w : World) (Hwf : wf w).

Lemma fresh_user_id : dict_get (User_id_counter w) (users (rental_service w)) = None.
Proof.
  destruct (dict_get _ _) as [u|] eqn:H; [|done].
  apply (wf_users w Hwf) in H. lia.
Qed.

Lemma fresh_car_id : dict_get (Car_id_counter w) (cars (rental_service w)) = None.
Proof.
  destruct (dict_get _ _) as [r|] eqn:H; [|done].
  apply (wf_cars w Hwf) in H. lia.
Qed.

Lemma fresh_booking_id : dict_get (Booking_id_counter w) (ledger w) = None.
Proof.
  destruct (dict_get _ _) as [b|] eqn:H; [|done].
  apply (wf_ledger w Hwf) in H. lia.
Qed.
End Fresh.

Lemma wf_user_added name email w :
  wf w → wf (user_added (mkUser (User_id_counter w) name email) w).
Proof.
  intros Hwf. pose proof (fresh_user_id w Hwf) as Hfresh.
  destruct Hwf as [Huk Hck Hlk Hu Hc Hh Hl Hcb Hnd Hdj].
  constructor; simpl; try done.
  - by apply dict_keys_NoDup_set_fresh.
  - intros k u. rewrite dict_get_set. case_decide.
    + intros [= <-]. simpl. lia.
    + intros Hk. apply Hu in Hk. lia.
  - intros k b Hk. destruct (Hl k b Hk) as (? & ? & Hbu & ?).
    repeat split; try done.
    rewrite dict_get_set_ne; [done|]. apply Hu in Hbu. lia.
Qed.

Lemma wf_car_added name car_type price w :
  wf w → wf (car_added (mkCar (Car_id_counter w) name car_type price []) w).
Proof.
  intros Hwf. pose proof (fresh_car_id w Hwf) as Hfresh.
  destruct Hwf as [Huk Hck Hlk Hu Hc Hh Hl Hcb Hnd Hdj].
  assert (Hnew : ∀ r c, (heap w ++ [mkCar (Car_id_counter w) name car_type price []])
                          !! r = Some c →
                        heap w !! r = Some c ∨
                        (r = length (heap w) ∧
                         c = mkCar (Car_id_counter w) name car_type price [])).
  { intros r c [[? ?]|[? <-]]%lookup_snoc_Some; auto. }
  constructor; simpl; try done.
  - by apply dict_keys_NoDup_set_fresh.
  - intros k r. rewrite dict_get_set. case_decide.
    + intros [= <-]. split; [lia|].
      exists (mkCar (Car_id_counter w) name car_type price []). split; [|done].
      by rewrite lookup_app_r, Nat.sub_diag by lia.
    + intros Hk. destruct (Hc k r Hk) as [? (c & Hr & ?)].
      split; [lia|]. exists c. split; [|done]. by apply lookup_app_l_Some.
  - intros r c [Hr|[-> ->]]%Hnew; simpl.
    + rewrite dict_get_set_ne; [by apply Hh|].
      destruct (Hc _ _ (Hh r c Hr)). lia.
    + apply dict_get_set_eq.
  - intros k b Hk. destruct (Hl k b Hk) as (? & ? & ? & c & Hr & ?).
    repeat split; try done. exists c. split; [|done]. by apply lookup_app_l_Some.
  - intros r c b [Hr|[-> ->]]%Hnew; simpl; [by apply Hcb|].
    intros Hb. by apply elem_of_nil in Hb.
  - intros r c [Hr|[-> ->]]%Hnew; simpl; [by eapply Hnd|constructor].
  - intros r c [Hr|[-> ->]]%Hnew; simpl; [by eapply Hdj|apply pairwise_disjoint_nil].
Qed.

Lemma lookup_booked (h : list Car) (car r : ref) (c c1 c' : Car) :
  h !! car = Some c →
  <[car := c1]> h !! r = Some c' →
  (r = car ∧ c' = c1) ∨ (r ≠ car ∧ h !! r = Some c').
Proof.
  intros Hc Hr. destruct (decide (r = car)) as [->|Hne].
  - left. split; [done|]. apply lookup_lt_Some in Hc.
    rewrite list_lookup_insert_eq in Hr by done. congruence.
  - right. split; [done|]. by rewrite list_lookup_insert_ne in Hr.
Qed.

Lemma wf_booked user_id car_id start_date end_date user car c w :
  wf w →
  dict_get user_id (users (rental_service w)) = Some user →
  dict_get car_id (cars (rental_service w)) = Some car →
  heap w !! car = Some c →
  is_available_loop (car_bookings c) start_date end_date = true →
  wf (booked (mkBooking (Booking_id_counter w) user car start_date end_date) c w).
Proof.
  intros Hwf Huser Hcar Hheap Hav. pose proof (fresh_booking_id w Hwf) as Hfresh.
  destruct Hwf as [Huk Hck Hlk Hu Hc Hh Hl Hcb Hnd Hdj].
  set (b := mkBooking (Booking_id_counter w) user car start_date end_date).
  assert (Hlen : (car < length (heap w))%nat) by by eapply lookup_lt_Some.
  assert (Hnotin : b ∉ car_bookings c).
  { intros Hb. destruct (Hcb car c b Hheap Hb) as [_ Hb']. simpl in Hb'.
    apply Hl in Hb'. lia. }
  assert (Hold : ∀ b', dict_get (booking_id b') (ledger w) = Some b' →
                       dict_get (booking_id b')
                         (dict_set (Booking_id_counter w) b (ledger w)) = Some b').
  { intros b' Hb'. rewrite dict_get_set_ne; [done|]. apply Hl in Hb'. lia. }
  unfold ledger in *.
  constructor; simpl; fold b; try done.
  - by apply dict_keys_NoDup_set_fresh.
  - intros k r Hk. destruct (Hc k r Hk) as [? (c' & Hr & ?)]. split; [done|].
    destruct (decide (r = car)) as [->|Hne].
    + exists (with_booking b c). rewrite list_lookup_insert_eq by done.
      split; [done|]. simpl. congruence.
    + exists c'. by rewrite list_lookup_insert_ne.
  - intros r c' [[-> ->]|[Hne Hr]]%(lookup_booked _ _ _ c); [|by apply Hh|done].
    simpl. by apply Hh.
  - intros k b'. unfold ledger. simpl. rewrite dict_get_set. case_decide.
    + intros [= <-]. simpl. repeat split; [done|lia| |].
      * destruct (Hu _ _ Huser) as [-> _]. done.
      * exists (with_booking b c). rewrite list_lookup_insert_eq by done.
        split; [done|]. simpl. apply elem_of_app. right. left.
    + intros Hk. destruct (Hl k b' Hk) as (? & ? & ? & c' & Hr & Hin).
      repeat split; [done|lia|done|].
      destruct (decide (booking_car b' = car)) as [Heq|Hne].
      * exists (with_booking b c). rewrite Heq, list_lookup_insert_eq by done.
        split; [done|]. simpl. apply elem_of_app. left.
        rewrite Heq in Hr. congruence.
      * exists c'. by rewrite list_lookup_insert_ne.
  - intros r c' b' [[-> ->]|[Hne Hr]]%(lookup_booked _ _ _ c); [| |done].
    + simpl. intros [Hb'|Hb'%list_elem_of_singleton]%elem_of_app.
      * destruct (Hcb car c b' Hheap Hb'). split; [done|]. by apply Hold.
      * subst b'. split; [done|]. apply dict_get_set_eq.
    + intros Hb'. destruct (Hcb r c' b' Hr Hb'). split; [done|]. by apply Hold.
  - intros r c' [[-> ->]|[Hne Hr]]%(lookup_booked _ _ _ c); [| |done].
    + simpl. apply NoDup_app. split; [by eapply Hnd|].
      split; [|apply NoDup_singleton].
      intros x Hx ->%list_elem_of_singleton. done.
    + by eapply Hnd.
  - intros r c' [[-> ->]|[Hne Hr]]%(lookup_booked _ _ _ c); [| |done].
    + simpl. apply pairwise_disjoint_snoc; [by eapply Hdj|done].
    + by eapply Hdj.
Qed.

Lemma wf_step P fleet w w' : wf w → step P fleet w w' → wf w'.
Proof.
  intros Hwf [| | |]; [done| | |].
  - by apply wf_user_added.
  - by apply wf_car_added.
  - by eapply wf_booked.
Qed.

(** Every world a history leads to from the initial one is well formed. *)
Lemma wf_run ops w : wf w → wf (run ops w).
Proof.
  revert w. induction ops as [|op ops IH]; intros w Hwf; simpl; [done|].
  apply IH. eapply wf_step; [done|apply exec_step].
Qed.

(** * The claims *)

(** ** C1 *)

(** C1: in every world reached from the initial one by a history of calls
    (registrations, bookings that succeed or fail, through the service or
    through the endpoints), no two bookings at different positions of the
    booking list of a car of the store overlap, where [s1,e1] and [s2,e2]
    overlap iff s1 <= e2 and s2 <= e1. *)
Theorem C1_bookings_of_a_car_never_overlap (ops : list Op) k r c :
  car_in_store (run ops initial_world) k r c →
  pairwise_disjoint (car_bookings c).
Proof.
  intros [_ Hr]. eapply wf_disjoint; [|done].
  apply wf_run, wf_initial.
Qed.

Lemma C1_bookings_of_a_car_never_overlap_witness :
  pairwise_disjoint (car_bookings peugeot_twice_booked).
Proof.
  apply (C1_bookings_of_a_car_never_overlap two_bookings 1 0%nat
           peugeot_twice_booked).
  split; reflexivity.
Defined.

(** ** C2 *)

(** Two dates with newEnd < newStart are not a range, but [is_available]
    takes them all the same and applies the same two comparisons: the car
    holds the booking 25..27 August, and for newStart = 27 August,
    newEnd = 20 August no booking has newStart <= e and s <= newEnd, so the
    answer is [True]. *)
Lemma is_available_with_dates_out_of_order :
  heap booked_in_august !! 0%nat
    = Some (mkCar 1 "Peugeot 208" "Economy" (float_of_Z 45) [august_25_27]) ∧
  date 2025 8 27 = booking_end_date august_25_27 ∧
  Car_is_available 0%nat (date 2025 8 27) (date 2025 8 20) booked_in_august
    = (Return true, booked_in_august).
Proof. repeat split; reflexivity. Qed.

(** C2: for a car [c] at reference [self] and all dates newStart, newEnd,
    [is_available] answers without changing the world, and the answer is
    [True] iff no booking [s, e] of the car has newStart <= e and
    s <= newEnd; in particular, for ranges (s <= e and newStart <= newEnd),
    a booking that the request touches (newStart = e or newEnd = s) makes
    the answer [False]. *)
Theorem C2_is_available_iff_no_overlap w self c newStart newEnd :
  heap w !! self = Some c →
  ∃ available,
    Car_is_available self newStart newEnd w = (Return available, w) ∧
    (available = true ↔
       ∀ b, b ∈ car_bookings c →
            ¬ (datetime_le newStart (booking_end_date b) ∧
               datetime_le (booking_start_date b) newEnd)) ∧
    (∀ b, b ∈ car_bookings c →
          datetime_le (booking_start_date b) (booking_end_date b) →
          datetime_le newStart newEnd →
          newStart = booking_end_date b ∨ newEnd = booking_start_date b →
          available = false).
Proof.
  intros Hc. exists (is_available_loop (car_bookings c) newStart newEnd).
  split; [|split].
  - unfold Car_is_available. unfold_monad. by rewrite Hc.
  - apply is_available_loop_true.
  - intros b Hb Hse Hnew Htouch.
    apply not_true_is_false. rewrite is_available_loop_true. intros Hfree.
    apply (Hfree b Hb). unfold overlap. destruct Htouch as [-> | ->].
    + split; [apply datetime_le_refl|].
      by apply (datetime_le_trans _ (booking_end_date b)).
    + split; [|apply datetime_le_refl].
      by apply (datetime_le_trans _ (booking_start_date b)).
Qed.

Lemma C2_is_available_iff_no_overlap_witness :
  ∃ available,
    Car_is_available 0%nat (date 2025 8 27) (date 2025 8 29) booked_in_august
      = (Return available, booked_in_august) ∧
    (available = true ↔
       ∀ b, b ∈ [august_25_27] →
            ¬ (datetime_le (date 2025 8 27) (booking_end_date b) ∧
               datetime_le (booking_start_date b) (date 2025 8 29))) ∧
    (∀ b, b ∈ [august_25_27] →
          datetime_le (booking_start_date b) (booking_end_date b) →
          datetime_le (date 2025 8 27) (date 2025 8 29) →
          date 2025 8 27 = booking_end_date b ∨
          date 2025 8 29 = booking_start_date b →
          available = false).
Proof.
  apply (C2_is_available_iff_no_overlap booked_in_august 0%nat
           (mkCar 1 "Peugeot 208" "Economy" (float_of_Z 45) [august_25_27])).
  reflexivity.
Defined.

(** ** C3 *)

(** C3, as stated, fails: [book_car] itself compares no dates, and the
    ledger then holds a booking that ends before it starts. *)
Lemma C3_service_stores_backwards_booking :
  dict_get 1 (ledger booked_backwards) = Some backwards ∧
  ¬ datetime_le (booking_start_date backwards) (booking_end_date backwards).
Proof. split; [reflexivity|]. by apply datetime_lt_not_le. Qed.

Lemma dates_ordered_step fleet w w' :
  dates_ordered w → step datetime_le fleet w w' → dates_ordered w'.
Proof.
  intros Hw [| | |]; try done.
  intros k b. unfold ledger. simpl. rewrite dict_get_set. case_decide.
  - by intros [= <-].
  - apply Hw.
Qed.

(** A call whose dates are in order is a step that books ordered dates
    only. *)
Lemma exec_step_in_order op w :
  dates_in_order op = true →
  step datetime_le (is_add_car op) w (snd (exec op w)).
Proof.
  intros Hop. destruct op as [| |uid cid s e| | | | | |];
    try (eapply step_weaken; [|apply exec_step]; simpl; by auto).
  unfold exec. rewrite bind_ret_state. by apply book_car_step.
Qed.

Lemma dates_ordered_run ops w :
  forallb dates_in_order ops = true →
  dates_ordered w → dates_ordered (run ops w).
Proof.
  revert w. induction ops as [|op ops IH]; intros w Hops Hw; simpl; [done|].
  simpl in Hops. apply andb_true_iff in Hops as [Hop Hops].
  apply IH; [done|].
  eapply dates_ordered_step; [done|]. by apply exec_step_in_order.
Qed.

(** C3, amended: after any history in which every direct call of
    [book_car] is given start date <= end date, every booking of the ledger
    has start date <= end date.  Requests through [POST /book] are not
    restricted: the endpoint answers 400 when the end date is before the
    start date, without calling the service. *)
Theorem C3_dates_ordered_when_direct_calls_are (ops : list Op) k b :
  forallb dates_in_order ops = true →
  dict_get k (ledger (run ops initial_world)) = Some b →
  datetime_le (booking_start_date b) (booking_end_date b).
Proof.
  intros Hops. apply (dates_ordered_run ops initial_world Hops).
  intros k' b' H. discriminate H.
Qed.

Lemma C3_dates_ordered_when_direct_calls_are_witness :
  datetime_le (booking_start_date august_28_30) (booking_end_date august_28_30).
Proof.
  apply (C3_dates_ordered_when_direct_calls_are
           (two_bookings
              ++ [Post_book (inr (1, 1, date 2025 10 5, date 2025 10 1));
                  Call_book_car 1 1 (date 2025 8 27) (date 2025 8 29)])
           2 august_28_30); reflexivity.
Defined.

(** ** C4 *)

(** C4: in every world and for all arguments, when [user_id] is not a key
    of the [users] dictionary, [book_car] raises the "User with id ... does
    not exist." error and leaves the world as it was, whatever the car
    identifier and the dates are. *)
Theorem C4_unknown_user_is_reported_first w user_id car_id start_date end_date :
  dict_get user_id (users (rental_service w)) = None →
  book_car user_id car_id start_date end_date w
    = (Raise (User_does_not_exist user_id), w).
Proof.
  intros Hu. unfold book_car, get_user. unfold_monad. by rewrite Hu.
Qed.

Lemma C4_unknown_user_is_reported_first_witness :
  book_car 7 9 (date 2025 10 5) (date 2025 10 1) booked_in_august
    = (Raise (User_does_not_exist 7), booked_in_august).
Proof.
  apply (C4_unknown_user_is_reported_first booked_in_august 7 9).
  reflexivity.
Defined.

(** The endpoint orders the checks differently: it compares the dates
    before it calls [book_car], so a request with a backwards range and an
    unknown user is answered with the date error. *)
Lemma book_car_endpoint_checks_dates_first w user_id car_id start_date end_date :
  datetime_lt end_date start_date →
  app.book_car_endpoint (inr (user_id, car_id, start_date, end_date)) w
    = (Return (error_response "End date must be after start date"), w).
Proof. intros Hlt. simpl. unfold datetime_lt in Hlt. by rewrite Hlt. Qed.

(** ** C5 *)

(** C5, as stated, fails: with the user and the car both registered,
    [book_car] called with an end date before the start date returns the
    new booking and records it. *)
Lemma C5_service_accepts_backwards_range :
  dict_get 1 (users (rental_service (run setup initial_world))) = Some alice ∧
  dict_get 1 (cars (rental_service (run setup initial_world))) = Some 0%nat ∧
  datetime_lt (date 2025 10 1) (date 2025 10 5) ∧
  book_car 1 1 (date 2025 10 5) (date 2025 10 1) (run setup initial_world)
    = (Return backwards, booked_backwards).
Proof. repeat split; reflexivity. Qed.

(** C5, amended: in every world (in particular when the user and the car
    both exist), a [POST /book] request whose end date is before its start
    date is answered 400 "End date must be after start date" and the world
    is unchanged, so no booking is created. *)
Theorem C5_endpoint_rejects_backwards_range w user_id car_id start_date end_date :
  datetime_lt end_date start_date →
  app.book_car_endpoint (inr (user_id, car_id, start_date, end_date)) w
    = (Return (error_response "End date must be after start date"), w).
Proof. apply book_car_endpoint_checks_dates_first. Qed.

Lemma C5_endpoint_rejects_backwards_range_witness :
  app.book_car_endpoint (inr (1, 1, date 2025 10 5, date 2025 10 1))
      (run setup initial_world)
    = (Return (error_response "End date must be after start date"),
       run setup initial_world).
Proof.
  apply (C5_endpoint_rejects_backwards_range (run setup initial_world) 1 1).
  reflexivity.
Defined.

(** ** C7 *)

(** C7: when [book_car] raises (unknown user, unknown car, or car not
    available), the world after the call is the world before it, and the
    same call made again raises the same error. *)
Theorem C7_failed_booking_changes_nothing
    w user_id car_id start_date end_date e w' :
  book_car user_id car_id start_date end_date w = (Raise e, w') →
  w' = w ∧ book_car user_id car_id start_date end_date w' = (Raise e, w').
Proof.
  intros H. assert (w' = w) as -> by by eapply book_car_failure_state. done.
Qed.

Lemma C7_failed_booking_changes_nothing_witness :
  booked_in_august = booked_in_august ∧
  book_car 1 1 (date 2025 8 27) (date 2025 8 29) booked_in_august
    = (Raise Car_not_available, booked_in_august).
Proof.
  apply (C7_failed_booking_changes_nothing booked_in_august 1 1
           (date 2025 8 27) (date 2025 8 29) Car_not_available booked_in_august).
  reflexivity.
Defined.

(** ** C9 *)

(** C9: [list_cars] and [list_bookings] leave the world unchanged, and a
    second call right after the first returns the same sequence. *)
Theorem C9_listings_are_read_only w :
  (snd (list_cars w) = w ∧
   fst (list_cars (snd (list_cars w))) = fst (list_cars w) ∧
   snd (list_cars (snd (list_cars w))) = w) ∧
  (snd (list_bookings w) = w ∧
   fst (list_bookings (snd (list_bookings w))) = fst (list_bookings w) ∧
   snd (list_bookings (snd (list_bookings w))) = w).
Proof.
  split.
  - rewrite !list_cars_state. done.
  - rewrite !list_bookings_state. done.
Qed.

(** ** C6 *)

Lemma step_counter_mono P fleet k w w' :
  step P fleet w w' → counter k w ≤ counter k w'.
Proof. intros [| | |]; destruct k; simpl; lia. Qed.

(** A call that assigns an identifier assigns the current value of the
    counter of its kind and moves that counter one up. *)
Lemma exec_assigned op w k z :
  assigned op (fst (exec op w)) (snd (exec op w)) = Some (k, z) →
  z = counter k w ∧ counter k (snd (exec op w)) = z + 1.
Proof.
  destruct op as [name email|name car_type price|uid cid s e| | |
                 |name email|parsed|]; unfold exec; try done.
  - unfold bind. rewrite add_user_eq. simpl. by intros [= <- <-].
  - unfold bind. rewrite add_car_eq. simpl.
    rewrite lookup_app_r, Nat.sub_diag by lia. simpl. by intros [= <- <-].
  - unfold bind.
    destruct (book_car_inv uid cid s e w); simpl; try done.
    by intros [= <- <-].
  - unfold app.register_user.
    destruct (negb (truthy name) || negb (truthy email)); [done|].
    unfold bind. rewrite add_user_eq. simpl. by intros [= <- <-].
  - unfold bind.
    destruct (book_car_endpoint_inv parsed w); simpl; try done.
    by intros [= <- <-].
Qed.

Lemma ids_assigned_cons k op ops w :
  ids_assigned k (op :: ops) w =
    assigned_of k (assigned op (fst (exec op w)) (snd (exec op w)))
      ++ ids_assigned k ops (snd (exec op w)).
Proof. simpl. by destruct (exec op w). Qed.

Lemma ids_assigned_sorted k ops w :
  Forall (λ z, counter k w ≤ z) (ids_assigned k ops w) ∧
  StronglySorted Z.lt (ids_assigned k ops w).
Proof.
  revert w. induction ops as [|op ops IH]; intros w.
  { split; constructor. }
  rewrite ids_assigned_cons.
  destruct (IH (snd (exec op w))) as [Hge Hsorted].
  pose proof (step_counter_mono _ _ k _ _ (exec_step op w)) as Hmono.
  pose proof (exec_assigned op w) as Ha.
  destruct (assigned op (fst (exec op w)) (snd (exec op w))) as [[k' z]|]; simpl.
  - case_decide; simpl.
    + subst k'. destruct (Ha k z eq_refl) as [Hz Hnext]. split.
      * constructor; [lia|]. eapply Forall_impl; [done|]. simpl. lia.
      * constructor; [done|]. eapply Forall_impl; [done|]. simpl. lia.
    + split; [|done]. eapply Forall_impl; [done|]. simpl. lia.
  - split; [|done]. eapply Forall_impl; [done|]. simpl. lia.
Qed.

Lemma StronglySorted_lt_NoDup (l : list Z) : StronglySorted Z.lt l → NoDup l.
Proof.
  induction 1 as [|z l Hl IH Hz]; constructor; [|done].
  intros Hin. rewrite Forall_forall in Hz. specialize (Hz z Hin). lia.
Qed.

(** C6: from any world, for each of the three kinds (users, cars,
    bookings), the identifiers assigned by the successful creations of a
    history form, in the order of the calls, a strictly increasing sequence,
    and no identifier occurs twice in it. *)
Theorem C6_identifiers_strictly_increasing (k : Kind) (ops : list Op) (w : World) :
  StronglySorted Z.lt (ids_assigned k ops w) ∧ NoDup (ids_assigned k ops w).
Proof.
  destruct (ids_assigned_sorted k ops w) as [_ Hs].
  split; [done|]. by apply StronglySorted_lt_NoDup.
Qed.

(** ** C8 *)

Lemma list_cars_eq w :
  list_cars w = mapM Car_to_dict (dict_values (cars (rental_service w))) w.
Proof. reflexivity. Qed.

(** A traversal that only reads gives the same result in two worlds in
    which each single read gives the same result. *)
Lemma mapM_fst_ext {A B} (f : A → M B) (l : list A) w1 w2 :
  (∀ a w, snd (f a w) = w) →
  (∀ a, a ∈ l → fst (f a w1) = fst (f a w2)) →
  fst (mapM f l w1) = fst (mapM f l w2).
Proof.
  intros Hro. induction l as [|a l IH]; intros Hl; simpl; [done|].
  unfold bind at 1 3.
  pose proof (Hro a w1) as E1. pose proof (Hro a w2) as E2.
  pose proof (Hl a ltac:(left)) as E.
  destruct (f a w1) as [o1 w1'], (f a w2) as [o2 w2']. simpl in *. subst.
  destruct o2 as [b| |]; simpl; try done.
  unfold bind.
  assert (IH' : fst (mapM f l w1) = fst (mapM f l w2)).
  { apply IH. intros a' Ha'. apply Hl. by right. }
  destruct (mapM f l w1) as [o1 w1'], (mapM f l w2) as [o2 w2']. simpl in *.
  subst. by destruct o2.
Qed.

Lemma mapM_app_fst {A B} (f : A → M B) (l1 l2 : list A) w bs1 bs2 :
  (∀ a w, snd (f a w) = w) →
  fst (mapM f l1 w) = Return bs1 →
  fst (mapM f l2 w) = Return bs2 →
  fst (mapM f (l1 ++ l2) w) = Return (bs1 ++ bs2).
Proof.
  intros Hro. revert bs1. induction l1 as [|a l1 IH]; intros bs1; simpl.
  { by intros [= <-]. }
  unfold bind at 1 3. pose proof (Hro a w) as E.
  destruct (f a w) as [[b| |] w']; simpl in *; subst; try done.
  unfold bind. intros H1 H2.
  destruct (mapM f l1 w) as [[bs| |] w1] eqn:E1; simpl in *; try done.
  injection H1 as <-. specialize (IH bs eq_refl H2).
  destruct (mapM f (l1 ++ l2) w) as [o w2]. simpl in *. by subst.
Qed.

Lemma Car_to_dict_heap r w1 w2 :
  heap w1 !! r = heap w2 !! r → fst (Car_to_dict r w1) = fst (Car_to_dict r w2).
Proof.
  intros H. unfold Car_to_dict. unfold_monad. rewrite H.
  by destruct (heap w2 !! r).
Qed.

Lemma Car_to_dict_booked r b c w :
  heap w !! booking_car b = Some c →
  fst (Car_to_dict r (booked b c w)) = fst (Car_to_dict r w).
Proof.
  intros Hc. destruct (decide (r = booking_car b)) as [->|Hne].
  - unfold Car_to_dict. unfold_monad.
    rewrite list_lookup_insert_eq by by eapply lookup_lt_Some.
    by rewrite Hc.
  - apply Car_to_dict_heap. simpl. by rewrite list_lookup_insert_ne.
Qed.

(** A call that registers no car does not change what [list_cars]
    returns. *)
Lemma list_cars_frame P w w' :
  step P false w w' → fst (list_cars w') = fst (list_cars w).
Proof.
  intros [| | |]; [done| |done|]; rewrite !list_cars_eq; simpl.
  - apply mapM_fst_ext; [apply Car_to_dict_state|]. intros r _.
    by apply Car_to_dict_heap.
  - apply mapM_fst_ext; [apply Car_to_dict_state|]. intros r _.
    by apply (Car_to_dict_booked r (mkBooking _ _ car _ _)).
Qed.

Lemma cars_added_cons op ops w :
  cars_added (op :: ops) w =
    car_added_by op (fst (exec op w)) (snd (exec op w))
      ++ cars_added ops (snd (exec op w)).
Proof. simpl. by destruct (exec op w). Qed.

Lemma list_cars_car_added name car_type price w l :
  wf w → fst (list_cars w) = Return l →
  fst (list_cars (car_added (mkCar (Car_id_counter w) name car_type price []) w))
    = Return (l ++ [[("id", PyInt (Car_id_counter w)); ("name", PyStr name);
                     ("type", PyStr car_type); ("price_per_day", PyFloat price)]]).
Proof.
  intros Hwf Hl. rewrite list_cars_eq in *. simpl.
  rewrite dict_set_fresh by by apply fresh_car_id.
  unfold dict_values. rewrite map_app. simpl.
  apply mapM_app_fst; [apply Car_to_dict_state| |].
  - rewrite <- Hl. apply mapM_fst_ext; [apply Car_to_dict_state|].
    intros r Hr. apply Car_to_dict_heap. simpl.
    apply list_elem_of_fmap in Hr as [[k r'] [-> Hr]]. simpl.
    apply dict_elem_get in Hr; [|apply Hwf].
    destruct (wf_cars w Hwf k r' Hr) as [_ (c & Hc & _)].
    rewrite Hc. by apply lookup_app_l_Some.
  - unfold mapM, Car_to_dict. unfold_monad.
    by rewrite lookup_app_r, Nat.sub_diag by lia.
Qed.

Lemma list_cars_run ops w l :
  wf w → fst (list_cars w) = Return l →
  fst (list_cars (run ops w)) = Return (l ++ cars_added ops w).
Proof.
  revert w l. induction ops as [|op ops IH]; intros w l Hwf Hl.
  { simpl. by rewrite app_nil_r. }
  rewrite cars_added_cons. simpl run.
  pose proof (exec_step op w) as Hstep.
  assert (Hwf' : wf (snd (exec op w))) by by eapply wf_step.
  destruct (is_add_car op) eqn:Hop.
  - destruct op; try done. clear Hstep. revert Hwf'.
    unfold exec at 1 2 3 4 5. unfold bind. rewrite add_car_eq. simpl. intros Hwf'.
    unfold Car_to_dict at 1. unfold_monad.
    rewrite lookup_app_r, Nat.sub_diag by lia. simpl.
    erewrite IH; [|done|by apply list_cars_car_added].
    by rewrite <- app_assoc.
  - erewrite IH; [|done|by erewrite list_cars_frame].
    by destruct op.
Qed.

(** The three cars of the module, as [GET /cars] lists them at start-up. *)
Example list_cars_seeded :
  fst (list_cars seeded_world) =
    Return [[("id", PyInt 1); ("name", PyStr "Peugeot 208");
             ("type", PyStr "Economy"); ("price_per_day", PyFloat (float_of_Z 45))];
            [("id", PyInt 2); ("name", PyStr "BMW X5");
             ("type", PyStr "SUV"); ("price_per_day", PyFloat (float_of_Z 120))];
            [("id", PyInt 3); ("name", PyStr "Tesla Model 3");
             ("type", PyStr "Electric"); ("price_per_day", PyFloat (float_of_Z 150))]].
Proof. reflexivity. Qed.

(** C8: after any history from the initial world, [list_cars] returns the
    dictionaries of the cars that the [add_car] calls of the history
    returned, in the order of those calls; and from any world, a sequence
    of booking calls (to [book_car] or to [POST /book], successful or not)
    leaves the result of [list_cars] as it was. *)
Theorem C8_list_cars_in_insertion_order_whatever_is_booked :
  (∀ ops, fst (list_cars (run ops initial_world))
            = Return (cars_added ops initial_world)) ∧
  (∀ w ops, forallb is_booking ops = true →
            fst (list_cars (run ops w)) = fst (list_cars w)).
Proof.
  split.
  - intros ops. by apply (list_cars_run ops initial_world [] wf_initial).
  - intros w ops. revert w. induction ops as [|op ops IH]; intros w Hops; [done|].
    simpl in Hops. apply andb_true_iff in Hops as [Hop Hops].
    simpl. rewrite IH by done.
    apply (list_cars_frame (λ s e, through_endpoint op = true → datetime_le s e)).
    replace false with (is_add_car op) by by destruct op.
    apply exec_step.
Qed.

Lemma C8_list_cars_in_insertion_order_whatever_is_booked_witness :
  fst (list_cars
         (run [Call_book_car 1 1 (date 2025 8 25) (date 2025 8 27);
               Post_book (inr (1, 2, date 2025 8 25, date 2025 8 27));
               Call_book_car 1 1 (date 2025 8 27) (date 2025 8 29)]
            (run [Call_add_user "Alice" "alice@example.com"] seeded_world)))
    = fst (list_cars (run [Call_add_user "Alice" "alice@example.com"] seeded_world)).
Proof.
  apply (proj2 C8_list_cars_in_insertion_order_whatever_is_booked).
  reflexivity.
Defined.

(** ** C10 *)

Lemma occurrences_not_elem b l : b ∉ l → occurrences b l = 0%nat.
Proof.
  unfold occurrences. induction l as [|x l IH]; [done|].
  intros [Hx Hl]%not_elem_of_cons.
  rewrite filter_cons_False by congruence. by apply IH.
Qed.

Lemma occurrences_NoDup b l : NoDup l → b ∈ l → occurrences b l = 1%nat.
Proof.
  induction 1 as [|x l Hx Hnd IH]; intros Hb.
  { by apply elem_of_nil in Hb. }
  destruct (decide (x = b)) as [->|Hne].
  - pose proof (occurrences_not_elem b l Hx) as H0. unfold occurrences in *.
    rewrite filter_cons_True by done. simpl. by rewrite H0.
  - apply elem_of_cons in Hb as [?|Hb]; [congruence|]. specialize (IH Hb).
    unfold occurrences in *. by rewrite filter_cons_False.
Qed.

(** C10: in every world reached from the initial one, every booking of the
    ledger is stored under its own identifier, its user is the user the
    store holds under that user's identifier, its car is a car of the
    store, the booking occurs exactly once in the booking list of that car
    and in the booking list of no car registered under another identifier;
    and every booking of the booking list of a car of the store is in the
    ledger. *)
Theorem C10_ledger_and_booking_lists_agree (ops : list Op) :
  (∀ k b,
     dict_get k (ledger (run ops initial_world)) = Some b →
     booking_id b = k ∧
     dict_get (user_id (booking_user b))
       (users (rental_service (run ops initial_world))) = Some (booking_user b) ∧
     ∃ c,
       car_in_store (run ops initial_world) (car_id c) (booking_car b) c ∧
       occurrences b (car_bookings c) = 1%nat ∧
       ∀ k' r' c', car_in_store (run ops initial_world) k' r' c' →
                   k' ≠ car_id c → b ∉ car_bookings c') ∧
  (∀ k r c b,
     car_in_store (run ops initial_world) k r c → b ∈ car_bookings c →
     dict_get (booking_id b) (ledger (run ops initial_world)) = Some b).
Proof.
  pose proof (wf_run ops initial_world wf_initial) as Hwf.
  set (w := run ops initial_world) in *. split.
  - intros k b Hk.
    destruct (wf_ledger w Hwf k b Hk) as (Hid & _ & Hu & c & Hc & Hin).
    split; [done|]. split; [done|]. exists c. split; [|split].
    + split; [by apply (wf_heap w Hwf)|done].
    + apply occurrences_NoDup; [by eapply (wf_nodup w Hwf)|done].
    + intros k' r' c' [Hk' Hr'] Hne Hin'.
      destruct (wf_car_bookings w Hwf r' c' b Hr' Hin') as [Hcar _].
      destruct (wf_cars w Hwf k' r' Hk') as [_ (c'' & Hc'' & Hid'')].
      subst r'. congruence.
  - intros k r c b [_ Hr] Hin.
    by destruct (wf_car_bookings w Hwf r c b Hr Hin).
Qed.

Lemma C10_ledger_and_booking_lists_agree_witness :
  booking_id august_28_30 = 2 ∧
  dict_get (user_id (booking_user august_28_30))
    (users (rental_service (run two_bookings initial_world)))
    = Some (booking_user august_28_30) ∧
  ∃ c,
    car_in_store (run two_bookings initial_world) (car_id c)
      (booking_car august_28_30) c ∧
    occurrences august_28_30 (car_bookings c) = 1%nat ∧
    ∀ k' r' c', car_in_store (run two_bookings initial_world) k' r' c' →
                k' ≠ car_id c → august_28_30 ∉ car_bookings c'.
Proof.
  apply (proj1 (C10_ledger_and_booking_lists_agree two_bookings) 2 august_28_30).
  reflexivity.
Defined.

(** ** No dangling reference

    In a well-formed world every reference the service follows names a
    car, so no call ends in [Stuck]: each call returns or raises one of the
    three [ValueError]s. *)

Lemma mapM_Return {A B} (f : A → M B) (l : list A) w :
  (∀ a w0, snd (f a w0) = w0) →
  (∀ a, a ∈ l → ∃ b, fst (f a w) = Return b) →
  ∃ bs, fst (mapM f l w) = Return bs.
Proof.
  intros Hro. induction l as [|a l IH]; intros Hl; simpl; [by eexists|].
  unfold bind at 1. destruct (Hl a ltac:(left)) as [b Hb].
  pose proof (Hro a w) as E.
  destruct (f a w) as [o w']. simpl in *. subst. unfold bind.
  destruct IH as [bs Hbs]. { intros a' Ha'. apply Hl. by right. }
  destruct (mapM f l w) as [o w']. simpl in *. subst. by eexists.
Qed.

Lemma list_cars_Return w : wf w → ∃ l, fst (list_cars w) = Return l.
Proof.
  intros Hwf. rewrite list_cars_eq.
  apply mapM_Return; [apply Car_to_dict_state|].
  intros r [[k r'] [-> Hr]]%list_elem_of_fmap. simpl.
  apply dict_elem_get in Hr; [|apply Hwf].
  destruct (wf_cars w Hwf k r' Hr) as [_ (c & Hc & _)].
  unfold Car_to_dict. unfold_monad. rewrite Hc. by eexists.
Qed.

Lemma list_bookings_Return w : wf w → ∃ l, fst (list_bookings w) = Return l.
Proof.
  intros Hwf. unfold list_bookings. unfold bind at 1, gets.
  apply mapM_Return; [apply Booking_to_dict_state|].
  intros b [[k b'] [-> Hb]]%list_elem_of_fmap. simpl.
  apply dict_elem_get in Hb; [|apply Hwf].
  destruct (wf_ledger w Hwf k b' Hb) as (_ & _ & _ & c & Hc & _).
  unfold Booking_to_dict. unfold_monad. rewrite Hc. by eexists.
Qed.

Lemma book_car_not_stuck user_id car_id start_date end_date w :
  wf w → fst (book_car user_id car_id start_date end_date w) ≠ Stuck.
Proof.
  intros Hwf.
  destruct (book_car_inv user_id car_id start_date end_date w)
    as [| | user car Hu Hc Hh | |]; simpl; try done.
  destruct (wf_cars w Hwf _ _ Hc) as [_ (c & Hc' & _)]. congruence.
Qed.

Lemma bind_ret_Return {A B} (m : M A) (f : A → B) w a :
  fst (m w) = Return a → fst ((x <- m ;; ret (f x)) w) = Return (f a).
Proof. unfold bind, ret. destruct (m w) as [o w']. simpl. by intros ->. Qed.

Lemma no_stuck op w : wf w → fst (exec op w) ≠ Stuck.
Proof.
  intros Hwf.
  destruct op as [name email|name car_type price|uid cid s e| | |
                 |name email|parsed|]; unfold exec.
  - unfold bind. by rewrite add_user_eq.
  - unfold bind. by rewrite add_car_eq.
  - pose proof (book_car_not_stuck uid cid s e w Hwf) as H.
    unfold bind. by destruct (book_car uid cid s e w) as [[b|err|] w'].
  - destruct (list_cars_Return w Hwf) as [l Hl].
    by rewrite (bind_ret_Return _ _ _ l).
  - destruct (list_bookings_Return w Hwf) as [l Hl].
    by rewrite (bind_ret_Return _ _ _ l).
  - destruct (list_cars_Return w Hwf) as [l Hl]. unfold app.list_cars.
    erewrite bind_ret_Return; [done|]. by apply bind_ret_Return.
  - unfold app.register_user.
    destruct (negb (truthy name) || negb (truthy email)); [done|].
    unfold bind. by rewrite add_user_eq.
  - unfold bind.
    destruct (book_car_endpoint_inv parsed w)
      as [| | |uid cid s e Hlt Hb|]; simpl; try done.
    pose proof (book_car_not_stuck uid cid s e w Hwf) as H. by rewrite Hb in H.
  - destruct (list_bookings_Return w Hwf) as [l Hl].
    unfold app.list_bookings_endpoint.
    erewrite bind_ret_Return; [done|]. by apply bind_ret_Return.
Qed.

(** Along a history from the initial world no call is ever stuck. *)
Lemma outcomes_not_stuck ops : Stuck ∉ outcomes ops initial_world.
Proof.
  assert (H : ∀ w, wf w → Stuck ∉ outcomes ops w); [|apply H, wf_initial].
  induction ops as [|op ops IH]; intros w Hwf; simpl.
  { apply not_elem_of_nil. }
  apply not_elem_of_cons. split.
  - intros Heq. by apply (no_stuck op w Hwf).
  - apply IH. eapply wf_step; [done|apply exec_step].
Qed.

(** * Further properties of the service *)

(** ** Helper lemmas *)

Lemma run_app ops1 ops2 w : run (ops1 ++ ops2) w = run ops2 (run ops1 w).
Proof. revert w. induction ops1 as [|op ops1 IH]; intros w; simpl; auto. Qed.

Lemma is_available_loop_app bs1 bs2 start_date end_date :
  is_available_loop (bs1 ++ bs2) start_date end_date =
    is_available_loop bs1 start_date end_date
    && is_available_loop bs2 start_date end_date.
Proof.
  induction bs1 as [|b bs1 IH]; simpl; [done|].
  by destruct (datetime_leb start_date (booking_end_date b)
               && datetime_leb (booking_start_date b) end_date).
Qed.

Lemma is_available_loop_false bs start_date end_date :
  is_available_loop bs start_date end_date = false ↔
  ∃ b, b ∈ bs ∧
       overlap start_date end_date (booking_start_date b) (booking_end_date b).
Proof.
  unfold overlap, datetime_le. induction bs as [|b0 bs IH]; simpl.
  - split; [done|]. intros (b & Hb & _). by apply elem_of_nil in Hb.
  - destruct (datetime_leb start_date (booking_end_date b0)) eqn:H1,
             (datetime_leb (booking_start_date b0) end_date) eqn:H2; simpl.
    + split; [|done]. intros _. exists b0. split; [left|done].
    + rewrite IH. split.
      * intros (b & Hb & Ho). exists b. split; [by right|done].
      * intros (b & [->|Hb]%elem_of_cons & Ho); [|by exists b].
        destruct Ho. congruence.
    + rewrite IH. split.
      * intros (b & Hb & Ho). exists b. split; [by right|done].
      * intros (b & [->|Hb]%elem_of_cons & Ho); [|by exists b].
        destruct Ho. congruence.
    + rewrite IH. split.
      * intros (b & Hb & Ho). exists b. split; [by right|done].
      * intros (b & [->|Hb]%elem_of_cons & Ho); [|by exists b].
        destruct Ho. congruence.
Qed.

Lemma Car_is_available_eq r c start_date end_date w :
  heap w !! r = Some c →
  Car_is_available r start_date end_date w
    = (Return (is_available_loop (car_bookings c) start_date end_date), w).
Proof. intros H. unfold Car_is_available. unfold_monad. by rewrite H. Qed.

(** What is known when [book_car] returns. *)
Lemma book_car_Return user_id car_id start_date end_date w b w' :
  book_car user_id car_id start_date end_date w = (Return b, w') →
  ∃ user car c,
    dict_get user_id (users (rental_service w)) = Some user ∧
    dict_get car_id (cars (rental_service w)) = Some car ∧
    heap w !! car = Some c ∧
    is_available_loop (car_bookings c) start_date end_date = true ∧
    b = mkBooking (Booking_id_counter w) user car start_date end_date ∧
    w' = booked b c w.
Proof.
  intros H. pose proof (book_car_inv user_id car_id start_date end_date w) as Hs.
  rewrite H in Hs. inversion Hs; subst. by exists user, car, c.
Qed.

(** [book_car] on a world where the three lookups succeed. *)
Lemma book_car_found user_id car_id start_date end_date w user car c :
  dict_get user_id (users (rental_service w)) = Some user →
  dict_get car_id (cars (rental_service w)) = Some car →
  heap w !! car = Some c →
  book_car user_id car_id start_date end_date w =
    if is_available_loop (car_bookings c) start_date end_date
    then (Return (mkBooking (Booking_id_counter w) user car start_date end_date),
          booked (mkBooking (Booking_id_counter w) user car start_date end_date)
            c w)
    else (Raise Car_not_available, w).
Proof.
  intros Hu Hc Hh.
  unfold book_car, get_user, get_car, Car_is_available, Booking__init__,
    Car_bookings_append.
  unfold_monad. rewrite Hu, Hc, Hh.
  destruct (is_available_loop (car_bookings c) start_date end_date); simpl;
    [|done].
  by rewrite Hh.
Qed.


(** ** Registering users and cars *)

(** X1: [add_user] returns a user with the given name and email and the
    current value of the counter as identifier, and moves the counter one
    up; [get_user] then finds that user under its identifier, finds under
    every other identifier what it found before, and the cars and the
    bookings are untouched. *)
Theorem X1_add_user_then_get_user name email w :
  ∃ u w',
    add_user name email w = (Return u, w') ∧
    u = mkUser (User_id_counter w) name email ∧
    User_id_counter w' = User_id_counter w + 1 ∧
    fst (get_user (user_id u) w') = Return (Some u) ∧
    (∀ k, k ≠ user_id u → fst (get_user k w') = fst (get_user k w)) ∧
    (∀ k, fst (get_car k w') = fst (get_car k w)) ∧
    heap w' = heap w ∧ ledger w' = ledger w.
Proof.
  eexists _, _. rewrite add_user_eq. cbv zeta. split; [done|].
  split; [done|]. split; [done|]. unfold get_user, get_car, gets. simpl.
  split; [by rewrite dict_get_set_eq|].
  split; [|done]. intros k Hk. by rewrite dict_get_set_ne.
Qed.

(** X2: [add_car] returns a new car with the given name, type and price,
    the current value of the counter as identifier and no booking;
    [get_car] then finds it under that identifier, [is_available] answers
    [True] for it whatever the two dates are, and the cars that were there
    are found as before and are unchanged. *)
Theorem X2_add_car_then_get_car name car_type price w :
  ∃ r w',
    add_car name car_type price w = (Return r, w') ∧
    heap w' !! r = Some (mkCar (Car_id_counter w) name car_type price []) ∧
    Car_id_counter w' = Car_id_counter w + 1 ∧
    fst (get_car (Car_id_counter w) w') = Return (Some r) ∧
    (∀ start_date end_date,
       Car_is_available r start_date end_date w' = (Return true, w')) ∧
    (∀ k, k ≠ Car_id_counter w → fst (get_car k w') = fst (get_car k w)) ∧
    (∀ r0 c, heap w !! r0 = Some c → heap w' !! r0 = Some c) ∧
    (∀ k, fst (get_user k w') = fst (get_user k w)) ∧
    ledger w' = ledger w.
Proof.
  eexists _, _. rewrite add_car_eq. cbv zeta. split; [done|].
  set (c := mkCar (Car_id_counter w) name car_type price []).
  assert (Hnew : heap (car_added c w) !! length (heap w) = Some c).
  { simpl. by rewrite lookup_app_r, Nat.sub_diag by lia. }
  split; [done|]. split; [done|].
  split; [unfold get_car, gets; simpl; by rewrite dict_get_set_eq|].
  split; [intros s e; by rewrite (Car_is_available_eq _ c)|].
  unfold get_user, get_car, gets. simpl.
  split; [intros k Hk; by rewrite dict_get_set_ne|].
  split; [|done]. intros r0 c0 Hr0. by apply lookup_app_l_Some.
Qed.

(** X3: [add_user] does not look at the users already registered: called
    twice with the same name and email it creates two users with
    consecutive identifiers, and both are found afterwards. *)
Theorem X3_add_user_keeps_duplicates name email w :
  ∃ u1 w1 u2 w2,
    add_user name email w = (Return u1, w1) ∧
    add_user name email w1 = (Return u2, w2) ∧
    user_name u1 = name ∧ user_email u1 = email ∧
    user_name u2 = name ∧ user_email u2 = email ∧
    user_id u2 = user_id u1 + 1 ∧
    fst (get_user (user_id u1) w2) = Return (Some u1) ∧
    fst (get_user (user_id u2) w2) = Return (Some u2).
Proof.
  eexists _, _, _, _. rewrite !add_user_eq. cbv zeta.
  split; [done|]. split; [done|]. repeat (split; [done|]).
  unfold get_user, gets. simpl. split.
  - rewrite dict_get_set_ne by lia. by rewrite dict_get_set_eq.
  - by rewrite dict_get_set_eq.
Qed.

(** ** Identifiers without gaps *)

Lemma seqZ_snoc (n : Z) : 1 ≤ n → seqZ 1 (n - 1) ++ [n] = seqZ 1 (n + 1 - 1).
Proof.
  intros Hn. replace (n + 1 - 1) with ((n - 1) + 1) by lia.
  rewrite seqZ_app by lia. by replace (1 + (n - 1)) with n by lia.
Qed.

Lemma contiguous_initial : contiguous initial_world.
Proof. repeat split; simpl; lia. Qed.

Lemma contiguous_step P fleet w w' :
  wf w → contiguous w → step P fleet w w' → contiguous w'.
Proof.
  intros Hwf ([Hu Hku] & [Hc Hkc] & [Hb Hkb]) [| | |]; [done| | |];
    unfold contiguous, ledger in *; simpl.
  - rewrite dict_keys_set_fresh, Hku, seqZ_snoc by (done || by apply fresh_user_id).
    repeat split; (done || lia).
  - rewrite dict_keys_set_fresh, Hkc, seqZ_snoc by (done || by apply fresh_car_id).
    repeat split; (done || lia).
  - rewrite dict_keys_set_fresh, Hkb, seqZ_snoc
      by (done || by apply fresh_booking_id).
    repeat split; (done || lia).
Qed.

Lemma contiguous_run ops w : wf w → contiguous w → contiguous (run ops w).
Proof.
  revert w. induction ops as [|op ops IH]; intros w Hwf Hw; simpl; [done|].
  pose proof (exec_step op w) as Hstep.
  apply IH; [by eapply wf_step|by eapply contiguous_step].
Qed.

(** X4: in every world reached from the initial one, the keys of the
    [users], [cars] and [bookings] dictionaries are, in insertion order,
    1, 2, ... up to the class counter minus one: identifiers start at 1 and
    leave no gap, and a call that fails uses none up. *)
Theorem X4_identifiers_are_consecutive (ops : list Op) :
  dict_keys (users (rental_service (run ops initial_world)))
    = seqZ 1 (User_id_counter (run ops initial_world) - 1) ∧
  dict_keys (cars (rental_service (run ops initial_world)))
    = seqZ 1 (Car_id_counter (run ops initial_world) - 1) ∧
  dict_keys (bookings (rental_service (run ops initial_world)))
    = seqZ 1 (Booking_id_counter (run ops initial_world) - 1).
Proof.
  destruct (contiguous_run ops initial_world wf_initial contiguous_initial)
    as ([_ Hu] & [_ Hc] & [_ Hb]).
  done.
Qed.

(** ** Nothing is ever removed *)

Lemma extends_refl w : extends w w.
Proof. constructor; try done. intros r c Hr. by exists c. Qed.

Lemma extends_trans w1 w2 w3 : extends w1 w2 → extends w2 w3 → extends w1 w3.
Proof.
  intros [Hu1 Hc1 Hl1 Hh1] [Hu2 Hc2 Hl2 Hh2]. constructor; auto.
  intros r c Hr.
  destruct (Hh1 r c Hr) as (c' & Hr' & ? & ? & ? & ? & Hp1).
  destruct (Hh2 r c' Hr') as (c'' & Hr'' & ? & ? & ? & ? & Hp2).
  exists c''. repeat split; try congruence. by etrans.
Qed.

Lemma extends_step P fleet w w' : wf w → step P fleet w w' → extends w w'.
Proof.
  intros Hwf [|name email|name car_type price _|uid cid s e user car c Hu Hc Hh].
  - apply extends_refl.
  - constructor; simpl; try done.
    + intros k u Hk. rewrite dict_get_set_ne; [done|].
      apply (wf_users w Hwf) in Hk. lia.
    + intros r c Hr. by exists c.
  - constructor; simpl; try done.
    + intros k r Hk. rewrite dict_get_set_ne; [done|].
      apply (wf_cars w Hwf) in Hk. lia.
    + intros r c Hr. exists c. split; [by apply lookup_app_l_Some|done].
  - constructor; simpl; try done.
    + intros k b Hk. unfold ledger in *. simpl.
      rewrite dict_get_set_ne; [done|]. apply (wf_ledger w Hwf) in Hk. lia.
    + intros r c0 Hr. destruct (decide (r = car)) as [->|Hne].
      * eexists. rewrite list_lookup_insert_eq by by eapply lookup_lt_Some.
        split; [done|].
        assert (c0 = c) as ->
          by (pose proof (eq_trans (eq_sym Hr) Hh); by simplify_eq).
        simpl. repeat split. by apply prefix_app_r.
      * exists c0. by rewrite list_lookup_insert_ne.
Qed.

Lemma extends_run ops w : wf w → extends w (run ops w).
Proof.
  revert w. induction ops as [|op ops IH]; intros w Hwf; simpl.
  { apply extends_refl. }
  pose proof (exec_step op w) as Hstep.
  eapply extends_trans; [by eapply extends_step|].
  apply IH. by eapply wf_step.
Qed.

(** X5: no call removes or changes what the store holds.  Whatever
    history [ops2] follows a history [ops1] from the initial world, every
    user, car reference and booking found under an identifier after [ops1]
    is found unchanged under it after [ops2], and every car keeps its
    identifier, name, type and price, its booking list only growing at the
    end. *)
Theorem X5_nothing_is_removed (ops1 ops2 : list Op) :
  extends (run ops1 initial_world) (run (ops1 ++ ops2) initial_world).
Proof.
  rewrite run_app. apply extends_run, wf_run, wf_initial.
Qed.

(** X6: a range for which a car is not available stays unavailable: if
    [is_available] answers [False] after a history, it answers [False]
    for the same car and dates after every continuation of it. *)
Theorem X6_unavailable_for_good (ops1 ops2 : list Op) r start_date end_date :
  fst (Car_is_available r start_date end_date (run ops1 initial_world))
    = Return false →
  fst (Car_is_available r start_date end_date
         (run (ops1 ++ ops2) initial_world)) = Return false.
Proof.
  intros H. rewrite run_app.
  pose proof (extends_run ops2 (run ops1 initial_world)
                (wf_run ops1 initial_world wf_initial)) as Hext.
  set (w := run ops1 initial_world) in *.
  destruct (heap w !! r) as [c|] eqn:Hr.
  - rewrite (Car_is_available_eq r c) in H by done. simpl in H.
    destruct (ext_heap _ _ Hext r c Hr) as (c' & Hr' & _ & _ & _ & _ & [k Hk]).
    rewrite (Car_is_available_eq r c') by done. simpl.
    rewrite Hk, is_available_loop_app. by injection H as ->.
  - unfold Car_is_available in H. unfold_monad. by rewrite Hr in H.
Qed.

Lemma X6_unavailable_for_good_witness :
  fst (Car_is_available 0%nat (date 2025 8 27) (date 2025 8 29)
         (run ((setup ++ [Call_book_car 1 1 (date 2025 8 25) (date 2025 8 27)])
               ++ [Call_book_car 1 1 (date 2025 8 28) (date 2025 8 30);
                   Call_add_user "Bob" "bob@example.com"])
            initial_world)) = Return false.
Proof.
  apply (X6_unavailable_for_good
           (setup ++ [Call_book_car 1 1 (date 2025 8 25) (date 2025 8 27)])).
  reflexivity.
Defined.

(** ** Booking a car *)

(** X7: when [book_car] returns a booking, the user and the car were
    found; the booking carries the counter's value as identifier, that
    user, that car and the two dates as given; it is now the last element
    of the car's booking list and is stored in the ledger under its
    identifier; the car's other fields, the other cars, the other ledger
    entries, the users, the [cars] dictionary and the user and car counters
    are as before, and the booking counter is one higher. *)
Theorem X7_book_car_effect uid cid start_date end_date w b w' :
  book_car uid cid start_date end_date w = (Return b, w') →
  ∃ user car c,
    dict_get uid (users (rental_service w)) = Some user ∧
    dict_get cid (cars (rental_service w)) = Some car ∧
    heap w !! car = Some c ∧
    b = mkBooking (Booking_id_counter w) user car start_date end_date ∧
    heap w' !! car
      = Some (mkCar (car_id c) (car_name c) (car_type c) (price_per_day c)
                (car_bookings c ++ [b])) ∧
    (∀ r, r ≠ car → heap w' !! r = heap w !! r) ∧
    dict_get (booking_id b) (ledger w') = Some b ∧
    (∀ k, k ≠ booking_id b → dict_get k (ledger w') = dict_get k (ledger w)) ∧
    users (rental_service w') = users (rental_service w) ∧
    cars (rental_service w') = cars (rental_service w) ∧
    User_id_counter w' = User_id_counter w ∧
    Car_id_counter w' = Car_id_counter w ∧
    Booking_id_counter w' = Booking_id_counter w + 1.
Proof.
  intros (user & car & c & Hu & Hc & Hh & Hav & -> & ->)%book_car_Return.
  exists user, car, c. repeat (split; [done|]). unfold ledger. simpl.
  split; [by rewrite list_lookup_insert_eq by by eapply lookup_lt_Some|].
  split; [intros r Hr; by rewrite list_lookup_insert_ne|].
  split; [by rewrite dict_get_set_eq|].
  split; [intros k Hk; by rewrite dict_get_set_ne|]. done.
Qed.

Lemma X7_book_car_effect_witness :
  ∃ user car c,
    dict_get 1 (users (rental_service (run setup initial_world))) = Some user ∧
    dict_get 1 (cars (rental_service (run setup initial_world))) = Some car ∧
    heap (run setup initial_world) !! car = Some c ∧
    backwards
      = mkBooking (Booking_id_counter (run setup initial_world)) user car
          (date 2025 10 5) (date 2025 10 1) ∧
    heap booked_backwards !! car
      = Some (mkCar (car_id c) (car_name c) (car_type c) (price_per_day c)
                (car_bookings c ++ [backwards])) ∧
    (∀ r, r ≠ car →
          heap booked_backwards !! r = heap (run setup initial_world) !! r) ∧
    dict_get (booking_id backwards) (ledger booked_backwards) = Some backwards ∧
    (∀ k, k ≠ booking_id backwards →
          dict_get k (ledger booked_backwards)
            = dict_get k (ledger (run setup initial_world))) ∧
    users (rental_service booked_backwards)
      = users (rental_service (run setup initial_world)) ∧
    cars (rental_service booked_backwards)
      = cars (rental_service (run setup initial_world)) ∧
    User_id_counter booked_backwards
      = User_id_counter (run setup initial_world) ∧
    Car_id_counter booked_backwards = Car_id_counter (run setup initial_world) ∧
    Booking_id_counter booked_backwards
      = Booking_id_counter (run setup initial_world) + 1.
Proof.
  apply (X7_book_car_effect 1 1 (date 2025 10 5) (date 2025 10 1)).
  reflexivity.
Defined.

(** X8: in every world reached from the initial one [book_car] ends in
    exactly one of four ways, checked in this order: it raises the user
    error when the user identifier is unknown; else the car error when the
    car identifier is unknown; else the availability error when some
    booking [s, e] of the car has start_date <= e and s <= end_date; else
    it returns the booking.  It compares the two dates with each other in
    no case. *)
Theorem X8_book_car_outcomes (ops : list Op) uid cid start_date end_date :
  match fst (book_car uid cid start_date end_date (run ops initial_world)) with
  | Raise (User_does_not_exist n) =>
      n = uid ∧
      dict_get uid (users (rental_service (run ops initial_world))) = None
  | Raise (Car_does_not_exist n) =>
      n = cid ∧
      is_Some (dict_get uid (users (rental_service (run ops initial_world)))) ∧
      dict_get cid (cars (rental_service (run ops initial_world))) = None
  | Raise Car_not_available =>
      is_Some (dict_get uid (users (rental_service (run ops initial_world)))) ∧
      ∃ r c b, car_in_store (run ops initial_world) cid r c ∧
               b ∈ car_bookings c ∧
               datetime_le start_date (booking_end_date b) ∧
               datetime_le (booking_start_date b) end_date
  | Return b =>
      is_Some (dict_get uid (users (rental_service (run ops initial_world)))) ∧
      ∃ r c, car_in_store (run ops initial_world) cid r c ∧
             ∀ b', b' ∈ car_bookings c →
                   ¬ (datetime_le start_date (booking_end_date b') ∧
                      datetime_le (booking_start_date b') end_date)
  | Stuck => False
  end.
Proof.
  pose proof (wf_run ops initial_world wf_initial) as Hwf.
  set (w := run ops initial_world) in *.
  destruct (book_car_inv uid cid start_date end_date w)
    as [Hu|user Hu Hc|user car Hu Hc Hh|user car c Hu Hc Hh Hav
        |user car c Hu Hc Hh Hav]; simpl.
  - done.
  - by rewrite Hu.
  - destruct (wf_cars w Hwf _ _ Hc) as [_ (c & Hc' & _)]. congruence.
  - rewrite Hu. split; [done|].
    apply is_available_loop_false in Hav as (b & Hb & Ho).
    by exists car, c, b.
  - rewrite Hu. split; [done|]. exists car, c. split; [done|].
    by apply is_available_loop_true.
Qed.

(** X9: after [book_car] has returned a booking for a car, every request
    for that car by a registered user whose dates overlap the booked ones
    (start2 <= end_date and start_date <= end2) raises the availability
    error and leaves the world alone; in particular the same request made
    again does, when start_date <= end_date. *)
Theorem X9_booked_range_is_taken uid cid start_date end_date w b w' :
  book_car uid cid start_date end_date w = (Return b, w') →
  (∀ uid2 user2 start2 end2,
     dict_get uid2 (users (rental_service w)) = Some user2 →
     overlap start2 end2 start_date end_date →
     book_car uid2 cid start2 end2 w' = (Raise Car_not_available, w')) ∧
  (datetime_le start_date end_date →
   book_car uid cid start_date end_date w' = (Raise Car_not_available, w')).
Proof.
  intros (user & car & c & Hu & Hc & Hh & Hav & -> & ->)%book_car_Return.
  set (b := mkBooking (Booking_id_counter w) user car start_date end_date).
  assert (Hh' : heap (booked b c w) !! car = Some (with_booking b c)).
  { simpl. by rewrite list_lookup_insert_eq by by eapply lookup_lt_Some. }
  assert (Hrej : ∀ uid2 user2 start2 end2,
     dict_get uid2 (users (rental_service w)) = Some user2 →
     overlap start2 end2 start_date end_date →
     book_car uid2 cid start2 end2 (booked b c w)
       = (Raise Car_not_available, booked b c w)).
  { intros uid2 user2 start2 end2 Hu2 Ho.
    rewrite (book_car_found uid2 cid start2 end2 _ user2 car (with_booking b c))
      by done.
    assert (is_available_loop (car_bookings (with_booking b c)) start2 end2
            = false) as ->; [|done].
    apply is_available_loop_false. exists b. split; [|done].
    simpl. apply elem_of_app. right. left. }
  split; [done|]. intros Hle. apply (Hrej uid user); [done|].
  split; [done|done].
Qed.

Lemma X9_booked_range_is_taken_witness :
  (∀ uid2 user2 start2 end2,
     dict_get uid2 (users (rental_service (run setup initial_world)))
       = Some user2 →
     overlap start2 end2 (date 2025 8 25) (date 2025 8 27) →
     book_car uid2 1 start2 end2 booked_in_august
       = (Raise Car_not_available, booked_in_august)) ∧
  (datetime_le (date 2025 8 25) (date 2025 8 27) →
   book_car 1 1 (date 2025 8 25) (date 2025 8 27) booked_in_august
     = (Raise Car_not_available, booked_in_august)).
Proof.
  apply (X9_booked_range_is_taken 1 1 (date 2025 8 25) (date 2025 8 27)
           (run setup initial_world) august_25_27).
  reflexivity.
Defined.

(** X10: a request whose end date is before its start date does not
    conflict with itself: when [book_car] has accepted it once, the same
    call made again is accepted again and gets the next identifier. *)
Theorem X10_backwards_range_books_again uid cid start_date end_date w b w' :
  datetime_lt end_date start_date →
  book_car uid cid start_date end_date w = (Return b, w') →
  ∃ b2 w2,
    book_car uid cid start_date end_date w' = (Return b2, w2) ∧
    booking_id b2 = booking_id b + 1 ∧
    booking_car b2 = booking_car b ∧
    dict_get (booking_id b) (ledger w2) = Some b ∧
    dict_get (booking_id b2) (ledger w2) = Some b2.
Proof.
  intros Hlt (user & car & c & Hu & Hc & Hh & Hav & -> & ->)%book_car_Return.
  set (b := mkBooking (Booking_id_counter w) user car start_date end_date).
  assert (Hh' : heap (booked b c w) !! car = Some (with_booking b c)).
  { simpl. by rewrite list_lookup_insert_eq by by eapply lookup_lt_Some. }
  eexists _, _.
  rewrite (book_car_found uid cid start_date end_date _ user car
             (with_booking b c)) by done.
  assert (is_available_loop (car_bookings (with_booking b c))
            start_date end_date = true) as ->.
  { simpl. rewrite is_available_loop_app, Hav. simpl.
    apply datetime_lt_not_le in Hlt. unfold datetime_le in Hlt.
    by destruct (datetime_leb start_date end_date). }
  split; [done|]. unfold ledger. simpl. split; [done|]. split; [done|].
  split; [|by rewrite dict_get_set_eq].
  rewrite dict_get_set_ne by lia. by rewrite dict_get_set_eq.
Qed.

Lemma X10_backwards_range_books_again_witness :
  ∃ b2 w2,
    book_car 1 1 (date 2025 10 5) (date 2025 10 1) booked_backwards
      = (Return b2, w2) ∧
    booking_id b2 = booking_id backwards + 1 ∧
    booking_car b2 = booking_car backwards ∧
    dict_get (booking_id backwards) (ledger w2) = Some backwards ∧
    dict_get (booking_id b2) (ledger w2) = Some b2.
Proof.
  apply (X10_backwards_range_books_again 1 1 (date 2025 10 5) (date 2025 10 1)
           (run setup initial_world)); reflexivity.
Defined.

(** X11: bookings of one car do not count against another: after a
    history from the initial world, when [book_car] returns a booking for
    the car [cid], [is_available] answers for every car registered under
    another identifier, and for all dates, what it answered before. *)
Theorem X11_other_cars_unaffected (ops : list Op)
    uid cid start_date end_date b w' cid2 r2 start2 end2 :
  book_car uid cid start_date end_date (run ops initial_world) = (Return b, w') →
  cid2 ≠ cid →
  dict_get cid2 (cars (rental_service (run ops initial_world))) = Some r2 →
  dict_get cid2 (cars (rental_service w')) = Some r2 ∧
  fst (Car_is_available r2 start2 end2 w')
    = fst (Car_is_available r2 start2 end2 (run ops initial_world)).
Proof.
  pose proof (wf_run ops initial_world wf_initial) as Hwf.
  set (w := run ops initial_world) in *.
  intros (user & car & c & Hu & Hc & Hh & Hav & -> & ->)%book_car_Return
    Hne Hr2.
  split; [done|].
  destruct (wf_cars w Hwf _ _ Hc) as [_ (c1 & Hc1 & Hid1)].
  destruct (wf_cars w Hwf _ _ Hr2) as [_ (c2 & Hc2 & Hid2)].
  assert (r2 ≠ car) by (intros ->; congruence).
  rewrite (Car_is_available_eq r2 c2), (Car_is_available_eq r2 c2 _ _ w);
    [done|done|].
  simpl. by rewrite list_lookup_insert_ne.
Qed.

Lemma X11_other_cars_unaffected_witness :
  dict_get 2 (cars (rental_service two_cars_one_booked)) = Some 1%nat ∧
  fst (Car_is_available 1%nat (date 2025 8 26) (date 2025 8 28)
         two_cars_one_booked)
    = fst (Car_is_available 1%nat (date 2025 8 26) (date 2025 8 28)
             (run two_cars initial_world)).
Proof.
  apply (X11_other_cars_unaffected two_cars 1 1 (date 2025 8 25)
           (date 2025 8 27) august_25_27 two_cars_one_booked 2 1%nat);
    [reflexivity|lia|reflexivity].
Defined.

(** ** The endpoints *)

Lemma truthy_Some_nonempty s : s ≠ "" → truthy (Some s) = true.
Proof.
  intros Hs. simpl. destruct (String.eqb s "") eqn:E; [|done].
  by apply String.eqb_eq in E.
Qed.

(** X12: for a body that is a JSON object whose "name" and "email" entries
    are strings or are absent or null, [POST /users] answers 400 "Missing
    name or email" and leaves the world alone when the name or the email is
    absent, null or the empty string; when both are non-empty strings it
    registers the user and answers 201 with the new identifier, the name
    and the email, and [get_user] finds the user under that identifier. *)
Theorem X12_register_user_validates name email w :
  (name = None ∨ name = Some "" ∨ email = None ∨ email = Some "" →
   app.register_user name email w
     = (Return (error_response "Missing name or email"), w)) ∧
  (∀ n e, name = Some n → email = Some e → n ≠ "" → e ≠ "" →
     app.register_user name email w
       = (Return (mkResponse
                    (JObject [("id", PyInt (User_id_counter w));
                              ("name", PyStr n); ("email", PyStr e)]) 201),
          snd (add_user n e w)) ∧
     fst (get_user (User_id_counter w) (snd (add_user n e w)))
       = Return (Some (mkUser (User_id_counter w) n e))).
Proof.
  split.
  - intros H. unfold app.register_user.
    assert (negb (truthy name) || negb (truthy email) = true) as ->; [|done].
    destruct H as [-> | [-> | [-> | ->]]]; simpl; try done;
      by destruct (negb (truthy name)).
  - intros n e -> -> Hn He. unfold app.register_user.
    rewrite !truthy_Some_nonempty by done. simpl.
    unfold bind. rewrite add_user_eq. simpl. split; [done|].
    unfold get_user, gets. simpl. by rewrite dict_get_set_eq.
Qed.

Lemma X12_register_user_validates_witness :
  app.register_user (Some "Alice") (Some "alice@example.com") initial_world
    = (Return (mkResponse
                 (JObject [("id", PyInt (User_id_counter initial_world));
                           ("name", PyStr "Alice");
                           ("email", PyStr "alice@example.com")]) 201),
       snd (add_user "Alice" "alice@example.com" initial_world)) ∧
  fst (get_user (User_id_counter initial_world)
         (snd (add_user "Alice" "alice@example.com" initial_world)))
    = Return (Some (mkUser (User_id_counter initial_world) "Alice"
                      "alice@example.com")).
Proof.
  apply (proj2 (X12_register_user_validates (Some "Alice")
                  (Some "alice@example.com") initial_world));
    (reflexivity || discriminate).
Defined.

(** X13: for a request on which the first [try] block of [POST /book]
    converts the four values or raises a [TypeError] or [ValueError], and
    in every world reached from the initial one: the endpoint answers with
    status 400 or 201, and no [ValueError] of [book_car] gets through.  A
    400 answer leaves the world as it was.  A 201 answer means that
    [book_car] returned a booking for the four values, that start date <=
    end date, that the world is the one [book_car] left, and that the body
    carries the booking's identifier.  When the dates are in order and
    [book_car] raises, the answer is 400 with the text of the error. *)
Theorem X13_book_car_endpoint_answers (ops : list Op) parsed :
  ∃ resp w',
    app.book_car_endpoint parsed (run ops initial_world) = (Return resp, w') ∧
    (status resp = 400 ∨ status resp = 201) ∧
    (status resp = 400 → w' = run ops initial_world) ∧
    (status resp = 201 →
       ∃ uid cid start_date end_date b,
         parsed = inr (uid, cid, start_date, end_date) ∧
         datetime_le start_date end_date ∧
         book_car uid cid start_date end_date (run ops initial_world)
           = (Return b, w') ∧
         created_id resp = Some (booking_id b)) ∧
    (∀ uid cid start_date end_date e w1,
       parsed = inr (uid, cid, start_date, end_date) →
       datetime_le start_date end_date →
       book_car uid cid start_date end_date (run ops initial_world)
         = (Raise e, w1) →
       resp = error_response (ValueError_str e)).
Proof.
  pose proof (wf_run ops initial_world wf_initial) as Hwf.
  set (w := run ops initial_world) in *.
  destruct (book_car_endpoint_inv parsed w)
    as [msg|uid cid s e Hlt|uid cid s e err Hlt Hb|uid cid s e Hlt Hb
        |uid cid s e user car c Hlt Hu Hc Hh Hav].
  - eexists _, _. split; [done|]. split; [by left|]. split; [done|].
    split; [done|]. intros ? ? ? ? ? ? [=].
  - eexists _, _. split; [done|]. split; [by left|]. split; [done|].
    split; [done|]. intros ? ? ? ? ? ? [= <- <- <- <-] Hle.
    by apply datetime_lt_not_le in Hlt.
  - eexists _, _. split; [done|]. split; [by left|]. split; [done|].
    split; [done|]. intros ? ? ? ? ? ? [= <- <- <- <-] _. rewrite Hb.
    by intros [= <- _].
  - exfalso. by apply (book_car_not_stuck uid cid s e w Hwf); rewrite Hb.
  - pose proof (book_car_found uid cid s e w user car c Hu Hc Hh) as Hb.
    rewrite Hav in Hb.
    eexists _, _. split; [done|]. split; [by right|]. split; [done|].
    split.
    + intros _. eexists uid, cid, s, e, _. split; [done|].
      split; [by apply datetime_ltb_false_le|]. split; [exact Hb|done].
    + intros ? ? ? ? ? ? [= <- <- <- <-] _. rewrite Hb. done.
Qed.

(** ** Listing the bookings *)

Lemma list_bookings_eq w :
  list_bookings w = mapM Booking_to_dict (dict_values (ledger w)) w.
Proof. reflexivity. Qed.

Lemma Booking_to_dict_eq b c w :
  heap w !! booking_car b = Some c →
  Booking_to_dict b w
    = (Return [("id", PyInt (booking_id b));
               ("user_id", PyInt (user_id (booking_user b)));
               ("car_id", PyInt (car_id c));
               ("start_date", PyStr (strftime_Ymd (booking_start_date b)));
               ("end_date", PyStr (strftime_Ymd (booking_end_date b)))], w).
Proof. intros H. unfold Booking_to_dict. unfold_monad. by rewrite H. Qed.

Lemma bookings_made_cons op ops w :
  bookings_made (op :: ops) w =
    booking_made_by op (fst (exec op w)) (snd (exec op w))
      ++ bookings_made ops (snd (exec op w)).
Proof. simpl. by destruct (exec op w). Qed.

(** The dictionary of a stored booking does not change when the world
    grows. *)
Lemma Booking_to_dict_extends k b w w' :
  wf w → extends w w' → dict_get k (ledger w) = Some b →
  fst (Booking_to_dict b w') = fst (Booking_to_dict b w).
Proof.
  intros Hwf Hext Hk.
  destruct (wf_ledger w Hwf k b Hk) as (_ & _ & _ & c & Hc & _).
  destruct (ext_heap _ _ Hext _ _ Hc) as (c' & Hc' & Hid & _).
  rewrite (Booking_to_dict_eq b c w) by done.
  rewrite (Booking_to_dict_eq b c' w') by done.
  simpl. by rewrite Hid.
Qed.

Lemma list_bookings_frame w w' :
  wf w → extends w w' → ledger w' = ledger w →
  fst (list_bookings w') = fst (list_bookings w).
Proof.
  intros Hwf Hext Hl. rewrite !list_bookings_eq, Hl.
  apply mapM_fst_ext; [apply Booking_to_dict_state|].
  intros b [[k b'] [-> Hb]]%list_elem_of_fmap. simpl.
  apply dict_elem_get in Hb; [|apply Hwf].
  by apply (Booking_to_dict_extends k).
Qed.

Lemma list_bookings_booked uid cid start_date end_date user car c w l :
  wf w →
  dict_get uid (users (rental_service w)) = Some user →
  dict_get cid (cars (rental_service w)) = Some car →
  heap w !! car = Some c →
  is_available_loop (car_bookings c) start_date end_date = true →
  fst (list_bookings w) = Return l →
  fst (list_bookings
         (booked (mkBooking (Booking_id_counter w) user car start_date end_date)
            c w))
    = Return (l ++ [[("id", PyInt (Booking_id_counter w));
                     ("user_id", PyInt (user_id user));
                     ("car_id", PyInt (car_id c));
                     ("start_date", PyStr (strftime_Ymd start_date));
                     ("end_date", PyStr (strftime_Ymd end_date))]]).
Proof.
  intros Hwf Hu Hc Hh Hav Hl.
  set (b := mkBooking (Booking_id_counter w) user car start_date end_date).
  assert (Hext : extends w (booked b c w)).
  { eapply (extends_step (λ _ _, True) false); [done|].
    by eapply step_book. }
  assert (Hh' : heap (booked b c w) !! booking_car b = Some (with_booking b c)).
  { simpl. by rewrite list_lookup_insert_eq by by eapply lookup_lt_Some. }
  rewrite list_bookings_eq in *. unfold ledger at 1. simpl.
  rewrite dict_set_fresh by by apply fresh_booking_id.
  unfold dict_values. rewrite map_app. simpl.
  apply mapM_app_fst; [apply Booking_to_dict_state| |].
  - rewrite <- Hl. apply mapM_fst_ext; [apply Booking_to_dict_state|].
    intros b0 [[k b'] [-> Hb]]%list_elem_of_fmap. simpl.
    apply dict_elem_get in Hb; [|apply Hwf].
    by apply (Booking_to_dict_extends k).
  - simpl. unfold bind. by rewrite (Booking_to_dict_eq b (with_booking b c)).
Qed.

(** What a call does to the ledger: nothing, with no contribution to the
    list of bookings made, or one booking more, which is its
    contribution. *)
Lemma exec_ledger op w :
  (ledger (snd (exec op w)) = ledger w ∧
   booking_made_by op (fst (exec op w)) (snd (exec op w)) = []) ∨
  (∃ uid cid start_date end_date user car c,
     dict_get uid (users (rental_service w)) = Some user ∧
     dict_get cid (cars (rental_service w)) = Some car ∧
     heap w !! car = Some c ∧
     is_available_loop (car_bookings c) start_date end_date = true ∧
     snd (exec op w)
       = booked (mkBooking (Booking_id_counter w) user car start_date end_date)
           c w ∧
     booking_made_by op (fst (exec op w)) (snd (exec op w))
       = [[("id", PyInt (Booking_id_counter w));
           ("user_id", PyInt (user_id user));
           ("car_id", PyInt (car_id c));
           ("start_date", PyStr (strftime_Ymd start_date));
           ("end_date", PyStr (strftime_Ymd end_date))]]).
Proof.
  destruct op as [name email|name car_type price|uid cid s e| | |
                 |name email|parsed|]; unfold exec.
  - left. unfold bind. by rewrite add_user_eq.
  - left. unfold bind. by rewrite add_car_eq.
  - unfold bind.
    destruct (book_car_inv uid cid s e w)
      as [| | | |user car c Hu Hc Hh Hav]; simpl; try by left.
    right. exists uid, cid, s, e, user, car, c. repeat (split; [done|]).
    rewrite (Booking_to_dict_eq _ (with_booking
      (mkBooking (Booking_id_counter w) user car s e) c)); [done|].
    simpl. by rewrite list_lookup_insert_eq by by eapply lookup_lt_Some.
  - left. rewrite bind_ret_state, list_cars_state. split; [done|].
    by destruct (fst _) as [[]| |].
  - left. rewrite bind_ret_state, list_bookings_state. split; [done|].
    by destruct (fst _) as [[]| |].
  - left. unfold app.list_cars.
    rewrite !bind_ret_state, list_cars_state. split; [done|].
    by destruct (fst _) as [[]| |].
  - left. unfold app.register_user.
    destruct (negb (truthy name) || negb (truthy email)); [done|].
    unfold bind. by rewrite add_user_eq.
  - unfold bind.
    destruct (book_car_endpoint_inv parsed w)
      as [| | | |uid cid s e user car c Hlt Hu Hc Hh Hav]; simpl; try by left.
    right. by exists uid, cid, s, e, user, car, c.
  - left. unfold app.list_bookings_endpoint.
    rewrite !bind_ret_state, list_bookings_state. split; [done|].
    by destruct (fst _) as [[]| |].
Qed.

Lemma list_bookings_run ops w l :
  wf w → fst (list_bookings w) = Return l →
  fst (list_bookings (run ops w)) = Return (l ++ bookings_made ops w).
Proof.
  revert w l. induction ops as [|op ops IH]; intros w l Hwf Hl.
  { simpl. by rewrite app_nil_r. }
  rewrite bookings_made_cons. simpl run.
  pose proof (exec_step op w) as Hstep.
  assert (Hwf' : wf (snd (exec op w))) by by eapply wf_step.
  destruct (exec_ledger op w)
    as [[Hsame ->]|(uid & cid & s & e & user & car & c & Hu & Hc & Hh & Hav
                    & Hw' & ->)].
  - apply IH; [done|]. rewrite <- Hl.
    apply list_bookings_frame; [done| |done]. by eapply extends_step.
  - rewrite app_assoc. apply IH; [done|]. rewrite Hw'.
    by eapply list_bookings_booked.
Qed.

(** X14: after any history from the initial world, [list_bookings]
    returns the dictionaries of the bookings made, in the order in which
    they were made: one for every booking that [book_car] returned and one
    for every 201 answer of [POST /book] (its body), and nothing for the
    calls that failed; [GET /bookings] answers 200 with the same list. *)
Theorem X14_list_bookings_in_creation_order (ops : list Op) :
  list_bookings (run ops initial_world)
    = (Return (bookings_made ops initial_world), run ops initial_world) ∧
  app.list_bookings_endpoint (run ops initial_world)
    = (Return (mkResponse (JArray (bookings_made ops initial_world)) 200),
       run ops initial_world).
Proof.
  pose proof (list_bookings_run ops initial_world [] wf_initial eq_refl) as Hl.
  pose proof (list_bookings_state (run ops initial_world)) as Hs.
  simpl in Hl. unfold app.list_bookings_endpoint, bind, ret.
  destruct (list_bookings (run ops initial_world)) as [o w'].
  simpl in *. by subst.
Qed.

(** ** The cars registered at start-up *)

Lemma wf_seeded_world : wf seeded_world.
Proof.
  change seeded_world with
    (run [Call_add_car "Peugeot 208" "Economy" (float_of_Z 45);
          Call_add_car "BMW X5" "SUV" (float_of_Z 120);
          Call_add_car "Tesla Model 3" "Electric" (float_of_Z 150)]
       initial_world).
  apply wf_run, wf_initial.
Qed.

(** X15: the module registers three cars when it is loaded; whatever
    history follows, [GET /cars] answers 200 with these three cars first,
    under the identifiers 1, 2 and 3 and in the order of their
    registration, then the cars added since, and leaves the world alone. *)
Theorem X15_seeded_cars_are_listed_first (ops : list Op) :
  app.list_cars (run ops seeded_world)
    = (Return
         (mkResponse
            (JArray
               ([[("id", PyInt 1); ("name", PyStr "Peugeot 208");
                  ("type", PyStr "Economy");
                  ("price_per_day", PyFloat (float_of_Z 45))];
                 [("id", PyInt 2); ("name", PyStr "BMW X5");
                  ("type", PyStr "SUV");
                  ("price_per_day", PyFloat (float_of_Z 120))];
                 [("id", PyInt 3); ("name", PyStr "Tesla Model 3");
                  ("type", PyStr "Electric");
                  ("price_per_day", PyFloat (float_of_Z 150))]]
                ++ cars_added ops seeded_world)) 200),
       run ops seeded_world).
Proof.
  pose proof (list_cars_run ops seeded_world _ wf_seeded_world eq_refl) as Hl.
  pose proof (list_cars_state (run ops seeded_world)) as Hs.
  unfold app.list_cars, bind, ret.
  destruct (list_cars (run ops seeded_world)) as [o w'].
  simpl in Hl, Hs. by subst.
Qed.

(** ** The text of the errors *)

Lemma string_length_app (s t : string) :
  String.length (s +:+ t) = (String.length s + String.length t)%nat.
Proof. induction s as [|a s IH]; simpl; [done|]. by rewrite IH. Qed.

Lemma string_app_inv_tail (s1 s2 t : string) : s1 +:+ t = s2 +:+ t → s1 = s2.
Proof.
  revert s2. induction s1 as [|a s1 IH]; intros [|b s2] H; simpl in H.
  - done.
  - apply (f_equal String.length) in H. simpl in H.
    rewrite !string_length_app in H. simpl in H. lia.
  - apply (f_equal String.length) in H. simpl in H.
    rewrite !string_length_app in H. simpl in H. lia.
  - injection H as -> H. f_equal. by apply IH.
Qed.

(** X16: the three errors of [book_car] have different texts, and the text
    of the user and of the car error determines the identifier: from the
    "error" entry of a 400 answer the caller can tell which check failed
    and for which identifier. *)
Theorem X16_error_texts_are_distinct (e1 e2 : ValueError) :
  ValueError_str e1 = ValueError_str e2 → e1 = e2.
Proof.
  destruct e1 as [n1|n1|], e2 as [n2|n2|]; unfold ValueError_str;
    cbn [String.append]; intros H; try discriminate H; try done.
  - simplify_eq. apply string_app_inv_tail in H. by apply (inj pretty) in H as ->.
  - simplify_eq. apply string_app_inv_tail in H. by apply (inj pretty) in H as ->.
Qed.

Lemma X16_error_texts_are_distinct_witness :
  User_does_not_exist 7 = User_does_not_exist 7.
Proof. apply X16_error_texts_are_distinct. reflexivity. Defined.

(** ** From a listed booking back to the store *)

(** X17: in every world reached from the initial one, [to_dict] of a
    booking stored in the ledger under [k] returns the five entries "id",
    "user_id", "car_id", "start_date" and "end_date" in this order; "id" is
    [k], [get_user] of "user_id" is the booking's user, and [get_car] of
    "car_id" is the booking's car, whose booking list holds the booking. *)
Theorem X17_booking_dict_refers_to_store (ops : list Op) k b :
  dict_get k (ledger (run ops initial_world)) = Some b →
  ∃ uid cid c,
    Booking_to_dict b (run ops initial_world)
      = (Return [("id", PyInt k); ("user_id", PyInt uid); ("car_id", PyInt cid);
                 ("start_date", PyStr (strftime_Ymd (booking_start_date b)));
                 ("end_date", PyStr (strftime_Ymd (booking_end_date b)))],
         run ops initial_world) ∧
    fst (get_user uid (run ops initial_world)) = Return (Some (booking_user b)) ∧
    fst (get_car cid (run ops initial_world)) = Return (Some (booking_car b)) ∧
    heap (run ops initial_world) !! booking_car b = Some c ∧
    b ∈ car_bookings c.
Proof.
  pose proof (wf_run ops initial_world wf_initial) as Hwf.
  set (w := run ops initial_world) in *. intros Hk.
  destruct (wf_ledger w Hwf k b Hk) as (Hid & _ & Hu & c & Hc & Hin).
  exists (user_id (booking_user b)), (car_id c), c.
  split; [by rewrite (Booking_to_dict_eq b c), Hid|].
  split; [unfold get_user, gets; simpl; by rewrite Hu|].
  split; [|done]. unfold get_car, gets. simpl.
  by rewrite (wf_heap w Hwf _ _ Hc).
Qed.

Lemma X17_booking_dict_refers_to_store_witness :
  ∃ uid cid c,
    Booking_to_dict august_28_30 (run two_bookings initial_world)
      = (Return [("id", PyInt 2); ("user_id", PyInt uid); ("car_id", PyInt cid);
                 ("start_date",
                  PyStr (strftime_Ymd (booking_start_date august_28_30)));
                 ("end_date",
                  PyStr (strftime_Ymd (booking_end_date august_28_30)))],
         run two_bookings initial_world) ∧
    fst (get_user uid (run two_bookings initial_world))
      = Return (Some (booking_user august_28_30)) ∧
    fst (get_car cid (run two_bookings initial_world))
      = Return (Some (booking_car august_28_30)) ∧
    heap (run two_bookings initial_world) !! booking_car august_28_30 = Some c ∧
    august_28_30 ∈ car_bookings c.
Proof.
  apply (X17_booking_dict_refers_to_store two_bookings 2 august_28_30).
  reflexivity.
Defined.

(** ** Two bookings in either order *)

(** X18: when two calls of [book_car] made one after the other both return
    a booking, the same two calls made in the other order both return a
    booking too, for the same users, cars and dates; only the identifiers
    are exchanged. *)
Theorem X18_accepted_bookings_commute
    uid1 cid1 start1 end1 uid2 cid2 start2 end2 w b1 w1 b2 w2 :
  book_car uid1 cid1 start1 end1 w = (Return b1, w1) →
  book_car uid2 cid2 start2 end2 w1 = (Return b2, w2) →
  ∃ b2' w1' b1' w2',
    book_car uid2 cid2 start2 end2 w = (Return b2', w1') ∧
    book_car uid1 cid1 start1 end1 w1' = (Return b1', w2') ∧
    b2' = mkBooking (booking_id b1) (booking_user b2) (booking_car b2)
            start2 end2 ∧
    b1' = mkBooking (booking_id b2) (booking_user b1) (booking_car b1)
            start1 end1.
Proof.
  intros (user1 & r1 & c1 & Hu1 & Hc1 & Hh1 & Hav1 & -> & ->)%book_car_Return.
  intros (user2 & r2 & c2 & Hu2 & Hc2 & Hh2 & Hav2 & -> & ->)%book_car_Return.
  simpl in Hu2, Hc2, Hh2.
  set (b1 := mkBooking (Booking_id_counter w) user1 r1 start1 end1) in *.
  assert (Hlen1 : (r1 < length (heap w))%nat) by by eapply lookup_lt_Some.
  destruct (decide (r2 = r1)) as [->|Hne].
  - rewrite list_lookup_insert_eq in Hh2 by done. injection Hh2 as <-.
    simpl in Hav2. rewrite is_available_loop_app in Hav2.
    apply andb_true_iff in Hav2 as [Hav2 Hb1]. simpl in Hb1.
    destruct (datetime_leb start2 end1 && datetime_leb start1 end2) eqn:Hov;
      [done|].
    eexists _, _, _, _.
    rewrite (book_car_found uid2 cid2 start2 end2 w user2 r1 c1) by done.
    rewrite Hav2. split; [done|].
    erewrite (book_car_found uid1 cid1 start1 end1 _ user1 r1); [|done|done|].
    2:{ simpl. by rewrite list_lookup_insert_eq. }
    simpl. rewrite is_available_loop_app, Hav1. simpl.
    rewrite andb_comm, Hov. done.
  - rewrite list_lookup_insert_ne in Hh2 by done.
    assert (Hlen2 : (r2 < length (heap w))%nat) by by eapply lookup_lt_Some.
    eexists _, _, _, _.
    rewrite (book_car_found uid2 cid2 start2 end2 w user2 r2 c2) by done.
    rewrite Hav2. split; [done|].
    erewrite (book_car_found uid1 cid1 start1 end1 _ user1 r1 c1); [|done|done|].
    2:{ simpl. by rewrite list_lookup_insert_ne. }
    rewrite Hav1. done.
Qed.

Lemma X18_accepted_bookings_commute_witness :
  ∃ b2' w1' b1' w2',
    book_car 1 1 (date 2025 8 28) (date 2025 8 30) (run setup initial_world)
      = (Return b2', w1') ∧
    book_car 1 1 (date 2025 8 25) (date 2025 8 27) w1' = (Return b1', w2') ∧
    b2' = mkBooking (booking_id august_25_27) (booking_user august_28_30)
            (booking_car august_28_30) (date 2025 8 28) (date 2025 8 30) ∧
    b1' = mkBooking (booking_id august_28_30) (booking_user august_25_27)
            (booking_car august_25_27) (date 2025 8 25) (date 2025 8 27).
Proof.
  apply (X18_accepted_bookings_commute 1 1 (date 2025 8 25) (date 2025 8 27)
           1 1 (date 2025 8 28) (date 2025 8 30) (run setup initial_world)
           august_25_27 booked_in_august august_28_30
           (run two_bookings initial_world)); reflexivity.
Defined.
